(** * Ambulance detection and traffic-signal control: a shallow embedding

    This development embeds [src/main.py] (class [AmbulanceDetectionSystem])
    and states the properties of its detection filter, its emergency
    signal controller and its streaming loop.

    Modelling conventions.
    - Python floats are read as the rationals they denote ([Q]); rounding of
      float arithmetic is not modelled.  Division raises
      [ZeroDivisionError] on a zero divisor, as in Python.
    - Python ints are unbounded: [Z].
    - An exception is a value of [exn]; a computation that may raise returns
      a [result].
    - The external collaborators (the YOLO model, OpenCV capture, drawing
      and keyboard) are oracles: what they return in one loop iteration is
      an input of that iteration.
    - Each method body of the class runs as one step; the timer thread of
      [threading.Timer] runs its callback between two such steps.  The
      source takes no lock, so the callback can also run while a method of
      the main thread is under way: the section on the timer thread,
      statement by statement, models that. *)

From Stdlib Require Import QArith.
From Stdlib Require Import Ascii DecimalString.
From stdpp Require Import base list gmap strings.

Open Scope Z_scope.

(** ** Python values *)

Module Py.

Inductive exn : Type :=
| ZeroDivisionError
| KeyError
| ExternalError (code : Z).

Inductive result (A : Type) : Type :=
| Ok (a : A)
| Raise (e : exn).
Arguments Ok {A} a.
Arguments Raise {A} e.

Definition bind {A B} (m : result A) (k : A → result B) : result B :=
  match m with
  | Ok a => k a
  | Raise e => Raise e
  end.

(** [a > b] on floats. *)
Definition gt (a b : Q) : bool :=
  (Qnum b * QDen a <? Qnum a * QDen b)%Z.

(** [int(x)] on a float: truncation toward zero. *)
Definition int (x : Q) : Z := Z.quot (Qnum x) (Z.pos (Qden x)).

(** [a / b] on floats. *)
Definition div (a b : Q) : result Q :=
  if Qeq_bool b 0 then Raise ZeroDivisionError else Ok (a / b)%Q.

(** [sum(xs)]: starts from 0 and adds from the left. *)
Definition sum (xs : list Q) : Q := fold_left Qplus xs 0%Q.

(** [len(xs)]. *)
Definition len {A} (xs : list A) : Z := Z.of_nat (length xs).

Definition lower_char (c : ascii) : ascii :=
  let n := nat_of_ascii c in
  if ((65 <=? n) && (n <=? 90))%nat then ascii_of_nat (n + 32) else c.

(** [s.lower()].  Only the code points A-Z are changed; no other code
    point has a lower-case form among the letters of "ambulance", so
    comparisons with that literal agree with Python's on every string. *)
Fixpoint lower (s : string) : string :=
  match s with
  | EmptyString => EmptyString
  | String c rest => String (lower_char c) (lower rest)
  end.

(** [needle in haystack] on strings. *)
Fixpoint contains (needle haystack : string) : bool :=
  String.prefix needle haystack ||
  match haystack with
  | EmptyString => false
  | String _ rest => contains needle rest
  end.

(** [str(n)] on an int. *)
Definition str (n : Z) : string := NilZero.string_of_int (Z.to_int n).

End Py.

Import Py.

(** ** Data *)

(** One element of [result.boxes]: [box.conf], [box.cls], [box.xyxy[0]]. *)
Record Box : Type := mkBox {
  conf : Q;
  cls : Q;
  xyxy : Q * Q * Q * Q
}.

(** The dict appended to [ambulance_detections] (main.py lines 73-76);
    ['bbox'] is always built as a list of four ints. *)
Record Detection : Type := mkDetection {
  bbox : Z * Z * Z * Z;
  confidence : Q
}.

(** What [self.model(frame)] returns: one entry per result, whose [boxes]
    may be [None]. *)
Definition Results : Type := list (option (list Box)).

(** ** Detection filter: [detect_in_frame] (main.py lines 45-79) *)

Definition detection_of (box : Box) : Detection :=
  let '(x1, y1, x2, y2) := xyxy box in
  {| bbox := (Py.int x1, Py.int y1, Py.int x2, Py.int y2);
     confidence := conf box |}.

(** The inner [for box in boxes] loop, appending to the accumulator. *)
Fixpoint scan_boxes (names : gmap Z string) (confidence_threshold : Q)
    (boxes : list Box) (ambulance_detections : list Detection)
    : result (list Detection) :=
  match boxes with
  | [] => Ok ambulance_detections
  | box :: rest =>
      if Py.gt (conf box) confidence_threshold then
        let class_id := Py.int (cls box) in
        match names !! class_id with
        | None => Raise KeyError
        | Some class_name =>
            if String.eqb (Py.lower class_name) "ambulance" then
              scan_boxes names confidence_threshold rest
                (ambulance_detections ++ [detection_of box])
            else scan_boxes names confidence_threshold rest ambulance_detections
        end
      else scan_boxes names confidence_threshold rest ambulance_detections
  end.

(** The outer [for result in results] loop. *)
Fixpoint scan_results (names : gmap Z string) (confidence_threshold : Q)
    (results : Results) (ambulance_detections : list Detection)
    : result (list Detection) :=
  match results with
  | [] => Ok ambulance_detections
  | None :: rest =>
      scan_results names confidence_threshold rest ambulance_detections
  | Some boxes :: rest =>
      Py.bind (scan_boxes names confidence_threshold boxes ambulance_detections)
              (scan_results names confidence_threshold rest)
  end.

(** [inference] is what the call [self.model(frame)] does: it returns the
    results or raises. *)
Definition detect_in_frame (names : gmap Z string) (confidence_threshold : Q)
    (inference : result Results) : result (list Detection) :=
  Py.bind inference
    (fun results => scan_results names confidence_threshold results []).

(** *** The filter as the specification words it *)

(** A raw detection: class label, confidence, bounding box. *)
Record RawDetection : Type := mkRaw {
  class_label : string;
  raw_confidence : Q;
  raw_box : Q * Q * Q * Q
}.

(** Keeps an item iff its class label, case-insensitively, equals
    [classFilter] and its confidence is strictly greater than
    [minConfidence]. *)
Definition spec_keep (classFilter : string) (minConfidence : Q)
    (d : RawDetection) : bool :=
  String.eqb (Py.lower (class_label d)) (Py.lower classFilter)
  && Py.gt (raw_confidence d) minConfidence.

Definition spec_filter (classFilter : string) (minConfidence : Q)
    (raws : list RawDetection) : list RawDetection :=
  List.filter (spec_keep classFilter minConfidence) raws.

(** The sighting record produced from a kept detection. *)
Definition sighting_of (d : RawDetection) : Detection :=
  let '(x1, y1, x2, y2) := raw_box d in
  {| bbox := (Py.int x1, Py.int y1, Py.int x2, Py.int y2);
     confidence := raw_confidence d |}.

(** A box read as a raw detection: its label is [names[int(box.cls)]]. *)
Definition raw_of (names : gmap Z string) (box : Box) : option RawDetection :=
  match names !! Py.int (cls box) with
  | Some class_name =>
      Some {| class_label := class_name;
              raw_confidence := conf box;
              raw_box := xyxy box |}
  | None => None
  end.

Definition boxes_of (results : Results) : list Box :=
  flat_map (fun r => match r with Some boxes => boxes | None => [] end) results.

(** ** Signal controller (main.py lines 19-43 and 106-126) *)

(** The calls to [self.logger] and the places they are made from. *)
Inductive LogEntry : Type :=
| LogEmergencyActivated   (* info, line 115 *)
| LogEmergencyReset       (* info, line 126 *)
| LogOpenFailed           (* error, line 137 *)
| LogStarting             (* info, line 140 *)
| LogEndOfStream          (* warning, line 147 *)
| LogStopped.             (* info, line 176 *)

(** [self.stats]: a dict created with these two keys and only ever read and
    written at them. *)
Record Stats : Type := mkStats {
  total_detections : Z;
  signal_changes : Z
}.

(** The attributes of an [AmbulanceDetectionSystem], with the timers it has
    started that have not fired yet (each by its interval, oldest first)
    and the log it has written. *)
Record System : Type := mkSystem {
  model_names : gmap Z string;
  confidence_threshold : Q;
  emergency_active : bool;
  traffic_signal_state : string;
  stats : Stats;
  timers : list Q;
  log : list LogEntry
}.

(** [__init__] (lines 20-43). *)
Definition init (names : gmap Z string) (threshold : Q) : System :=
  {| model_names := names;
     confidence_threshold := threshold;
     emergency_active := false;
     traffic_signal_state := "RED";
     stats := {| total_detections := 0; signal_changes := 0 |};
     timers := [];
     log := [] |}.

(** [trigger_emergency_protocol] (lines 106-118). *)
Definition trigger_emergency_protocol (s : System) : System :=
  if negb (emergency_active s) then
    {| model_names := model_names s;
       confidence_threshold := confidence_threshold s;
       emergency_active := true;
       traffic_signal_state := "GREEN";
       stats := {| total_detections := total_detections (stats s);
                   signal_changes := signal_changes (stats s) + 1 |};
       timers := timers s ++ [30%Q];
       log := log s ++ [LogEmergencyActivated] |}
  else s.

(** [reset_emergency_protocol] (lines 120-126). *)
Definition reset_emergency_protocol (s : System) : System :=
  {| model_names := model_names s;
     confidence_threshold := confidence_threshold s;
     emergency_active := false;
     traffic_signal_state := "RED";
     stats := stats s;
     timers := timers s;
     log := log s ++ [LogEmergencyReset] |}.

(** The oldest pending timer expires: its thread calls the callback it was
    given, [reset_emergency_protocol].  With no pending timer nothing runs. *)
Definition timer_fire (s : System) : System :=
  match timers s with
  | [] => s
  | _ :: pending =>
      reset_emergency_protocol
        {| model_names := model_names s;
           confidence_threshold := confidence_threshold s;
           emergency_active := emergency_active s;
           traffic_signal_state := traffic_signal_state s;
           stats := stats s;
           timers := pending;
           log := log s |}
  end.

(** Lines 154-156 of the loop: [if detections: ...]. *)
Definition on_sightings (detections : list Detection) (s : System) : System :=
  match detections with
  | [] => s
  | _ :: _ =>
      trigger_emergency_protocol
        {| model_names := model_names s;
           confidence_threshold := confidence_threshold s;
           emergency_active := emergency_active s;
           traffic_signal_state := traffic_signal_state s;
           stats := {| total_detections :=
                         total_detections (stats s) + Py.len detections;
                       signal_changes := signal_changes (stats s) |};
           timers := timers s;
           log := log s |}
  end.

(** The two states of the signal, read off [emergency_active]. *)
Inductive SignalState : Type := NORMAL | EMERGENCY.

Definition currentState (s : System) : SignalState :=
  if emergency_active s then EMERGENCY else NORMAL.

(** ** Overlay rendering (main.py lines 81-104 and 178-199) *)

Definition Point : Type := Z * Z.
Definition Color : Type := Z * Z * Z.

(** A text to draw: a plain string, or an f-string ending in a float
    printed with a fixed number of decimals. *)
Inductive Text : Type :=
| Plain (s : string)
| Fixed (prefix : string) (decimals : nat) (value : Q).

(** The OpenCV drawing calls, recorded in the order they are made.
    [Blend c alpha beta] is [c] drawn on a copy that is then mixed into the
    frame by [cv2.addWeighted]. *)
Inductive DrawCmd : Type :=
| Rectangle (pt1 pt2 : Point) (color : Color) (thickness : Z)
| PutText (text : Text) (org : Point) (fontScale : Q) (color : Color)
    (thickness : Z)
| Blend (c : DrawCmd) (alpha beta : Q).

Record Frame : Type := mkFrame {
  height : Z;
  width : Z;
  canvas : list DrawCmd
}.

Definition draw (c : DrawCmd) (frame : Frame) : Frame :=
  {| height := height frame; width := width frame;
     canvas := canvas frame ++ [c] |}.

(** The body of the loop of [draw_detections] for one detection.
    [getTextSize label] is [cv2.getTextSize(label, FONT, 0.6, 2)[0]]. *)
Definition draw_detection (getTextSize : Text → Z * Z) (frame : Frame)
    (detection : Detection) : Frame :=
  let '(b0, b1, b2, b3) := bbox detection in
  let frame := draw (Rectangle (b0, b1) (b2, b3) (0, 0, 255) 2) frame in
  let label := Fixed "AMBULANCE " 2 (confidence detection) in
  let label_size := getTextSize label in
  let frame :=
    draw (Rectangle (b0, b1 - label_size.2 - 10)
                    (b0 + label_size.1, b1 - 5) (0, 0, 255) (-1)) frame in
  draw (PutText label (b0, b1 - 10) (6 # 10) (255, 255, 255) 2) frame.

(** [draw_detections] (lines 81-104). *)
Definition draw_detections (getTextSize : Text → Z * Z) (frame : Frame)
    (detections : list Detection) : Frame :=
  fold_left (draw_detection getTextSize) detections frame.

(** The list [info_text] of [add_info_overlay] (lines 188-193). *)
Definition info_text (s : System) : list string :=
  [ "Detections: " +:+ Py.str (total_detections (stats s));
    "Signal Changes: " +:+ Py.str (signal_changes (stats s));
    "Emergency: " +:+ (if emergency_active s then "ACTIVE" else "NORMAL");
    "Signal: " +:+ traffic_signal_state s ].

(** The loop over [enumerate(info_text)] (lines 195-199), from index [i]. *)
Fixpoint put_info (status_color : Color) (width : Z) (i : Z)
    (texts : list string) (frame : Frame) : Frame :=
  match texts with
  | [] => frame
  | text :: rest =>
      let y_pos := 35 + i * 25 in
      let color :=
        if Py.contains "ACTIVE" text || Py.contains "GREEN" text
        then status_color else (255, 255, 255) in
      put_info status_color width (i + 1) rest
        (draw (PutText (Plain text) (width - 290, y_pos) (6 # 10) color 2)
              frame)
  end.

(** [add_info_overlay] (lines 178-199). *)
Definition add_info_overlay (s : System) (frame : Frame) : Frame :=
  let width := width frame in
  let frame :=
    draw (Blend (Rectangle (width - 300, 10) (width - 10, 120) (0, 0, 0) (-1))
                (6 # 10) (4 # 10)) frame in
  let status_color : Color :=
    if emergency_active s then (0, 255, 0) else (255, 255, 255) in
  put_info status_color width 0 (info_text s) frame.

(** ** Stream loop: [process_video_stream] (main.py lines 128-176) *)

(** [fps_counter.append(x)] on a [deque(maxlen=...)]: the new sample goes to
    the right end, and the left end is dropped when the length exceeds
    [maxlen]. *)
Definition deque_append (maxlen : nat) (d : list Q) (x : Q) : list Q :=
  let d' := d ++ [x] in
  if (maxlen <? length d')%nat then drop 1 d' else d'.

(** What the outside world supplies to one iteration in which [cap.read()]
    returned a frame. *)
Record FrameIO : Type := mkFrameIO {
  image : Frame;                (* the frame read, line 145 *)
  inference : result Results;   (* [self.model(frame)], line 56 *)
  render_error : option exn;    (* a drawing call of lines 158-159 failing *)
  processing_time : Q;          (* [time.time() - start_time], line 162 *)
  key : Z                       (* [cv2.waitKey(1)], line 170 *)
}.

(** What happens while the loop runs: a frame is read and processed, or the
    timer thread runs between two iterations.  The end of the list is
    [cap.read()] returning [ret = False]. *)
Inductive Event : Type :=
| EvFrame (io : FrameIO)
| EvTimer.

(** The variables of the running loop. *)
Record Loop : Type := mkLoop {
  sys : System;
  fps_counter : list Q;
  shown : list Frame            (* the frames given to [cv2.imshow] *)
}.

(** How one iteration ends. *)
Inductive Control : Type :=
| Next
| Break
| Raised (e : exn).

(** The body of [while True] after a successful read (lines 150-171), when
    the calls of lines 166-170 ([cv2.putText], [cv2.imshow],
    [cv2.waitKey]) return; [iteration_display] below lets them fail. *)
Definition iteration (getTextSize : Text → Z * Z) (io : FrameIO) (st : Loop)
    : Control * Loop :=
  let s := sys st in
  match detect_in_frame (model_names s) (confidence_threshold s)
          (inference io) with
  | Raise e => (Raised e, st)
  | Ok detections =>
      let s := on_sightings detections s in
      let st1 :=
        {| sys := s; fps_counter := fps_counter st; shown := shown st |} in
      match render_error io with
      | Some e => (Raised e, st1)
      | None =>
          let frame := draw_detections getTextSize (image io) detections in
          let frame := add_info_overlay s frame in
          match Py.div 1 (processing_time io) with
          | Raise e => (Raised e, st1)
          | Ok fps =>
              let fps_counter := deque_append 30 (fps_counter st) fps in
              match Py.div (Py.sum fps_counter)
                      (inject_Z (Py.len fps_counter)) with
              | Raise e =>
                  (Raised e,
                   {| sys := s; fps_counter := fps_counter;
                      shown := shown st |})
              | Ok avg_fps =>
                  let frame :=
                    draw (PutText (Fixed "FPS: " 1 avg_fps) (10, 30) (7 # 10)
                            (0, 255, 0) 2) frame in
                  let st2 :=
                    {| sys := s; fps_counter := fps_counter;
                       shown := shown st ++ [frame] |} in
                  if Z.land (key io) 255 =? 113 then (Break, st2)
                  else (Next, st2)
              end
          end
      end
  end.

Definition with_sys (s : System) (st : Loop) : Loop :=
  {| sys := s; fps_counter := fps_counter st; shown := shown st |}.

Definition write_log (entry : LogEntry) (s : System) : System :=
  {| model_names := model_names s;
     confidence_threshold := confidence_threshold s;
     emergency_active := emergency_active s;
     traffic_signal_state := traffic_signal_state s;
     stats := stats s;
     timers := timers s;
     log := log s ++ [entry] |}.

(** One event of a run. *)
Definition event_step (getTextSize : Text → Z * Z) (ev : Event) (st : Loop)
    : Control * Loop :=
  match ev with
  | EvFrame io => iteration getTextSize io st
  | EvTimer => (Next, with_sys (timer_fire (sys st)) st)
  end.

(** The [while True] loop (lines 144-171).  It returns how the loop was
    left, the variables at that point and the events not consumed. *)
Fixpoint while_true (getTextSize : Text → Z * Z) (events : list Event)
    (st : Loop) : result unit * Loop * list Event :=
  match events with
  | [] => (Ok tt, with_sys (write_log LogEndOfStream (sys st)) st, [])
  | ev :: rest =>
      match event_step getTextSize ev st with
      | (Next, st') => while_true getTextSize rest st'
      | (Break, st') => (Ok tt, st', rest)
      | (Raised e, st') => (Raise e, st', rest)
      end
  end.

(** [process_video_stream] (lines 128-176): [opened] is [cap.isOpened()].
    The [finally] block runs however the loop is left, and an exception
    then leaves the method. *)
Definition process_video_stream (getTextSize : Text → Z * Z) (opened : bool)
    (events : list Event) (s : System) : result unit * Loop * list Event :=
  if negb opened then
    (Ok tt,
     {| sys := write_log LogOpenFailed s; fps_counter := []; shown := [] |},
     events)
  else
    let st :=
      {| sys := write_log LogStarting s; fps_counter := []; shown := [] |} in
    let '(outcome, st', rest) := while_true getTextSize events st in
    (outcome, with_sys (write_log LogStopped (sys st')) st', rest).

(** The states the loop can be in when nothing runs inside anything else:
    those reached from a fresh system by events that each run to their
    end, the timer callback being one such event between two iterations. *)
Inductive reachable (getTextSize : Text → Z * Z) : Loop → Prop :=
| reachable_start names threshold :
    reachable getTextSize
      {| sys := write_log LogStarting (init names threshold);
         fps_counter := []; shown := [] |}
| reachable_step ev st :
    reachable getTextSize st →
    reachable getTextSize (event_step getTextSize ev st).2.

(** ** Examples of inputs *)

Module Examples.

Definition names : gmap Z string :=
  {[ 0 := "Ambulance"; 1 := "car" ]}.

Definition getTextSize (label : Text) : Z * Z := (150, 18).

Definition ambulance_box (c : Q) : Box :=
  {| conf := c; cls := 0%Q;
     xyxy := (100 # 1, 120 # 1, 3005 # 10, 2407 # 10)%Q |}.

Definition car_box (c : Q) : Box :=
  {| conf := c; cls := 1%Q; xyxy := (10 # 1, 20 # 1, 50 # 1, 60 # 1)%Q |}.

Definition raw (label : string) (box : Box) : RawDetection :=
  {| class_label := label; raw_confidence := conf box;
     raw_box := xyxy box |}.

(** Two results; the second has no boxes.  The third box sits exactly on
    the threshold 0.7. *)
Definition mixed_results : Results :=
  [ Some [ambulance_box (9 # 10); car_box (9 # 10); ambulance_box (7 # 10)];
    None;
    Some [ambulance_box (8 # 10)] ].

Definition mixed_raws : list RawDetection :=
  [ raw "Ambulance" (ambulance_box (9 # 10));
    raw "car" (car_box (9 # 10));
    raw "Ambulance" (ambulance_box (7 # 10));
    raw "Ambulance" (ambulance_box (8 # 10)) ].

(** A box below the threshold 0.7 whose class id has no name. *)
Definition faint_unnamed_box : Box :=
  {| conf := 1 # 2; cls := 7%Q; xyxy := (0, 0, 1, 1)%Q |}.

Definition blank : Frame := {| height := 480; width := 640; canvas := [] |}.

Definition frame_with (boxes : list Box) (seconds : Q) : FrameIO :=
  {| image := blank; inference := Ok [Some boxes]; render_error := None;
     processing_time := seconds; key := -1 |}.

Definition failing_inference : FrameIO :=
  {| image := blank; inference := Raise (ExternalError 1);
     render_error := None; processing_time := 1 # 20; key := -1 |}.

Definition failing_render : FrameIO :=
  {| image := blank; inference := Ok [Some [ambulance_box (9 # 10)]];
     render_error := Some (ExternalError 2);
     processing_time := 1 # 20; key := -1 |}.

Definition fresh : System := init names (7 # 10).

(** A sighting whose box leaves the 640 x 480 frame on every side. *)
Definition oversized : Detection :=
  {| bbox := (-20, -10, 700, 500); confidence := 9 # 10 |}.

Definition start : Loop :=
  {| sys := write_log LogStarting fresh; fps_counter := []; shown := [] |}.

End Examples.

(** ** Invariants of the controller *)

(** The flag and the signal colour say the same thing. *)
Definition signal_agrees (s : System) : Prop :=
  (emergency_active s = true ↔ traffic_signal_state s = "GREEN")
  ∧ (emergency_active s = false ↔ traffic_signal_state s = "RED").

(** One pending timer while the emergency lasts, none otherwise. *)
Definition single_flight (s : System) : Prop :=
  if emergency_active s then length (timers s) = 1%nat else timers s = [].

(** Neither counter of [b] is below that of [a]. *)
Definition stats_le (a b : System) : Prop :=
  total_detections (stats a) ≤ total_detections (stats b)
  ∧ signal_changes (stats a) ≤ signal_changes (stats b).

(** The arithmetic mean of a window, as the specification words it: the
    sum of the contents over their number, 0 if empty. *)
Definition arithmetic_mean (window : list Q) : Q :=
  match window with
  | [] => 0%Q
  | _ :: _ =>
      (fold_right Qplus 0 window / inject_Z (Z.of_nat (length window)))%Q
  end.

(** A point lies within the bounds of a frame. *)
Definition within (frame : Frame) (p : Point) : Prop :=
  0 ≤ p.1 ≤ width frame ∧ 0 ≤ p.2 ≤ height frame.

(** ** Notions used to state further properties *)

(** The box passes both tests of [detect_in_frame] (lines 65 and 70). *)
Definition keeps_box (names : gmap Z string) (threshold : Q) (box : Box)
    : bool :=
  Py.gt (conf box) threshold
  && match names !! Py.int (cls box) with
     | Some class_name => String.eqb (Py.lower class_name) "ambulance"
     | None => false
     end.

(** The box passes the confidence test and its class id has no name, so
    the lookup of line 67 fails. *)
Definition unnamed_box (names : gmap Z string) (threshold : Q) (box : Box)
    : bool :=
  Py.gt (conf box) threshold
  && match names !! Py.int (cls box) with
     | Some _ => false
     | None => true
     end.

Definition is_activation (entry : LogEntry) : bool :=
  match entry with LogEmergencyActivated => true | _ => false end.

Definition is_reset (entry : LogEntry) : bool :=
  match entry with LogEmergencyReset => true | _ => false end.

(** The number of sightings [detect_in_frame] returns for an event, with
    the model and threshold of [s]. *)
Definition sightings_in (s : System) (ev : Event) : Z :=
  match ev with
  | EvFrame io =>
      match detect_in_frame (model_names s) (confidence_threshold s)
              (inference io) with
      | Ok detections => Py.len detections
      | Raise _ => 0
      end
  | EvTimer => 0
  end.

Definition is_frame (ev : Event) : bool :=
  match ev with EvFrame _ => true | EvTimer => false end.

(** Nothing fails in the event and the quit key is not pressed. *)
Definition completes (s : System) (ev : Event) : Prop :=
  match ev with
  | EvFrame io =>
      (∃ detections,
         detect_in_frame (model_names s) (confidence_threshold s)
           (inference io) = Ok detections)
      ∧ render_error io = None
      ∧ ¬ (processing_time io == 0)%Q
      ∧ Z.land (key io) 255 ≠ 113
  | EvTimer => True
  end.

(** The FPS samples of the frames among the events, one per frame, in
    order: the [1.0 / processing_time] of line 163. *)
Definition elapsed_samples (events : list Event) : list Q :=
  flat_map
    (λ ev, match ev with
           | EvFrame io => [(1 / processing_time io)%Q]
           | EvTimer => []
           end)
    events.

(** The character occurs in the string. *)
Fixpoint occurs (c : ascii) (s : string) : bool :=
  match s with
  | EmptyString => false
  | String c' rest => Ascii.eqb c c' || occurs c rest
  end.

(** ** Entry point: [main] (main.py lines 201-227) *)

(** The calls to [print], in the order of the source. *)
Inductive Printed : Type :=
| PrintInitializing       (* line 205 *)
| PrintModelNotFound      (* line 213 *)
| PrintModelHint          (* line 214 *)
| PrintInitialized        (* line 220 *)
| PrintStartingVideo      (* line 221 *)
| PrintShutdown.          (* line 227 *)

(** [model_file_exists] is [os.path.exists("best.pt")]; [load_model] is
    what [YOLO(model_path)] does in [__init__]: it returns the model, of
    which the name table is kept, or raises.  The threshold is the default
    of [__init__], 0.7.  The result is how [main] is left, what it printed
    and the loop variables at the end, if a detector was built. *)
Definition main (getTextSize : Text → Z * Z) (model_file_exists : bool)
    (load_model : result (gmap Z string)) (opened : bool)
    (events : list Event) : result unit * list Printed * option Loop :=
  if negb model_file_exists then
    (Ok tt, [PrintInitializing; PrintModelNotFound; PrintModelHint], None)
  else
    match load_model with
    | Raise e => (Raise e, [PrintInitializing], None)
    | Ok names =>
        let detector := init names (7 # 10) in
        let '(outcome, st, _) :=
          process_video_stream getTextSize opened events detector in
        match outcome with
        | Raise e =>
            (Raise e,
             [PrintInitializing; PrintInitialized; PrintStartingVideo],
             Some st)
        | Ok _ =>
            (Ok tt,
             [PrintInitializing; PrintInitialized; PrintStartingVideo;
              PrintShutdown],
             Some st)
        end
    end.

(** ** The timer thread, statement by statement *)









(** ** The iteration with failing display calls *)

(** The calls made after the sample is appended (line 164). *)
Inductive DisplayCall : Type :=
| CallPutText     (* line 166 *)
| CallImshow      (* line 169 *)
| CallWaitKey.    (* line 170 *)

(** The body of [while True] after a successful read (lines 150-171), where
    [display_error] says which call of lines 166-170 raises, if any.  The
    sample is in the window by then; the frame counts as shown once
    [cv2.imshow] has returned. *)
Definition iteration_display (getTextSize : Text → Z * Z) (io : FrameIO)
    (display_error : option (DisplayCall * exn)) (st : Loop)
    : Control * Loop :=
  let s := sys st in
  match detect_in_frame (model_names s) (confidence_threshold s)
          (inference io) with
  | Raise e => (Raised e, st)
  | Ok detections =>
      let s := on_sightings detections s in
      let st1 :=
        {| sys := s; fps_counter := fps_counter st; shown := shown st |} in
      match render_error io with
      | Some e => (Raised e, st1)
      | None =>
          let frame := draw_detections getTextSize (image io) detections in
          let frame := add_info_overlay s frame in
          match Py.div 1 (processing_time io) with
          | Raise e => (Raised e, st1)
          | Ok fps =>
              let fps_counter := deque_append 30 (fps_counter st) fps in
              let appended :=
                {| sys := s; fps_counter := fps_counter;
                   shown := shown st |} in
              match Py.div (Py.sum fps_counter)
                      (inject_Z (Py.len fps_counter)) with
              | Raise e => (Raised e, appended)
              | Ok avg_fps =>
                  let frame :=
                    draw (PutText (Fixed "FPS: " 1 avg_fps) (10, 30) (7 # 10)
                            (0, 255, 0) 2) frame in
                  let st2 :=
                    {| sys := s; fps_counter := fps_counter;
                       shown := shown st ++ [frame] |} in
                  match display_error with
                  | Some (CallPutText, e) => (Raised e, appended)
                  | Some (CallImshow, e) => (Raised e, appended)
                  | Some (CallWaitKey, e) => (Raised e, st2)
                  | None =>
                      if Z.land (key io) 255 =? 113 then (Break, st2)
                      else (Next, st2)
                  end
              end
          end
      end
  end.

(** The states of the loop variables when display calls may fail as well:
    [reachable] extended with iterations in which one does. *)
Inductive reachable_display (getTextSize : Text → Z * Z) : Loop → Prop :=
| display_start names threshold :
    reachable_display getTextSize
      {| sys := write_log LogStarting (init names threshold);
         fps_counter := []; shown := [] |}
| display_step ev st :
    reachable_display getTextSize st →
    reachable_display getTextSize (event_step getTextSize ev st).2
| display_fails io failure st :
    reachable_display getTextSize st →
    reachable_display getTextSize
      (iteration_display getTextSize io (Some failure) st).2.

(** * Properties *)

(** ** Detection filter *)

Section Filter.

Variable names : gmap Z string.
Variable threshold : Q.

Lemma gt_spec (a b : Q) : Py.gt a b = true ↔ (b < a)%Q.
Proof. unfold Py.gt, Qlt. apply Z.ltb_lt. Qed.

Lemma sighting_of_raw box raw :
  raw_of names box = Some raw → sighting_of raw = detection_of box.
Proof.
  unfold raw_of. destruct (names !! Py.int (cls box)); [|done].
  intros [= <-]. reflexivity.
Qed.

Lemma scan_boxes_filter classFilter boxes :
  Py.lower classFilter = "ambulance" →
  ∀ raws acc,
    mapM (raw_of names) boxes = Some raws →
    scan_boxes names threshold boxes acc
    = Ok (acc ++ (sighting_of <$> spec_filter classFilter threshold raws)).
Proof.
  intros Hcf. induction boxes as [|box rest IH]; intros raws acc Hraws.
  - injection Hraws as <-. simpl. by rewrite app_nil_r.
  - simpl in Hraws.
    destruct (raw_of names box) as [raw|] eqn:Hraw; [|done].
    destruct (mapM (raw_of names) rest) as [raws'|] eqn:Hrest; [|done].
    injection Hraws as <-.
    pose proof (sighting_of_raw _ _ Hraw) as Hsight.
    unfold raw_of in Hraw.
    destruct (names !! Py.int (cls box)) as [class_name|] eqn:Hname; [|done].
    injection Hraw as <-.
    simpl. unfold spec_keep. simpl. rewrite Hname, Hcf.
    destruct (Py.gt (conf box) threshold).
    + destruct (String.eqb (Py.lower class_name) "ambulance"); simpl.
      * rewrite (IH raws') by done. rewrite Hsight.
        by rewrite <- app_assoc.
      * by apply IH.
    + rewrite andb_false_r. by apply IH.
Qed.

Lemma scan_results_filter classFilter results :
  Py.lower classFilter = "ambulance" →
  ∀ raws acc,
    mapM (raw_of names) (boxes_of results) = Some raws →
    scan_results names threshold results acc
    = Ok (acc ++ (sighting_of <$> spec_filter classFilter threshold raws)).
Proof.
  intros Hcf. induction results as [|[boxes|] rest IH]; intros raws acc Hraws.
  - injection Hraws as <-. simpl. by rewrite app_nil_r.
  - simpl in Hraws. apply mapM_Some in Hraws.
    apply Forall2_app_inv_l in Hraws as (raws1 & raws2 & H1 & H2 & ->).
    apply mapM_Some in H1, H2. simpl.
    rewrite (scan_boxes_filter classFilter boxes Hcf raws1) by done.
    simpl. rewrite (IH raws2) by done.
    unfold spec_filter. rewrite List.filter_app, fmap_app.
    by rewrite <- app_assoc.
  - simpl in *. by apply IH.
Qed.

End Filter.

Lemma filter_sublist {A} (f : A → bool) (l : list A) :
  sublist (List.filter f l) l.
Proof.
  induction l as [|x l IH]; simpl; [constructor|].
  destruct (f x); by constructor.
Qed.

Lemma spec_filter_elem classFilter threshold raws d :
  d ∈ spec_filter classFilter threshold raws ↔
  d ∈ raws
  ∧ Py.lower (class_label d) = Py.lower classFilter
  ∧ (threshold < raw_confidence d)%Q.
Proof.
  unfold spec_filter. rewrite !list_elem_of_In, List.filter_In.
  unfold spec_keep. rewrite andb_true_iff, String.eqb_eq, gt_spec.
  reflexivity.
Qed.

(** C2 (amended).  The class filter of [detect_in_frame] is the literal
    "ambulance", not an argument.  For every model name table, threshold
    and inference results whose boxes all have a class name, and for every
    filter string that is "ambulance" up to case, [detect_in_frame] returns
    the sightings of exactly the detections the specified filter keeps, in
    input order: those whose label is "ambulance" up to case and whose
    confidence is strictly above the threshold.  A detection whose
    confidence equals the threshold is not kept. *)
Theorem detect_in_frame_keeps names threshold results classFilter raws :
  Py.lower classFilter = "ambulance" →
  mapM (raw_of names) (boxes_of results) = Some raws →
  detect_in_frame names threshold (Ok results)
  = Ok (sighting_of <$> spec_filter classFilter threshold raws)
  ∧ (∀ d, d ∈ spec_filter classFilter threshold raws ↔
          d ∈ raws
          ∧ Py.lower (class_label d) = "ambulance"
          ∧ (threshold < raw_confidence d)%Q)
  ∧ (∀ d, (raw_confidence d == threshold)%Q →
          d ∉ spec_filter classFilter threshold raws)
  ∧ sublist (spec_filter classFilter threshold raws) raws.
Proof.
  intros Hcf Hraws. repeat split.
  - unfold detect_in_frame. simpl.
    by rewrite (scan_results_filter names threshold classFilter results
                  Hcf raws []).
  - rewrite spec_filter_elem, Hcf in H. tauto.
  - rewrite spec_filter_elem, Hcf in H. tauto.
  - rewrite spec_filter_elem, Hcf in H. tauto.
  - intros (? & ? & ?). rewrite spec_filter_elem, Hcf. tauto.
  - intros d Heq Hin. apply spec_filter_elem in Hin as (_ & _ & Hlt).
    rewrite Heq in Hlt. by apply Qlt_irrefl in Hlt.
  - apply filter_sublist.
Qed.

Lemma detect_in_frame_keeps_witness :
  detect_in_frame Examples.names (7 # 10) (Ok Examples.mixed_results)
  = Ok [ detection_of (Examples.ambulance_box (9 # 10));
         detection_of (Examples.ambulance_box (8 # 10)) ].
Proof.
  pose proof (detect_in_frame_keeps Examples.names (7 # 10)
                Examples.mixed_results "AMBULANCE" Examples.mixed_raws
                eq_refl eq_refl) as [Hrun _].
  rewrite Hrun. reflexivity.
Defined.

(** C2 as stated fails: with the filter string "car" the specified filter
    keeps a car detected at confidence 0.9 above the threshold 0.7, while
    [detect_in_frame] returns nothing for it. *)
Lemma class_filter_is_fixed :
  mapM (raw_of Examples.names) (boxes_of [Some [Examples.car_box (9 # 10)]])
  = Some [Examples.raw "car" (Examples.car_box (9 # 10))]
  ∧ spec_filter "car" (7 # 10)
      [Examples.raw "car" (Examples.car_box (9 # 10))]
    = [Examples.raw "car" (Examples.car_box (9 # 10))]
  ∧ detect_in_frame Examples.names (7 # 10)
      (Ok [Some [Examples.car_box (9 # 10)]])
    = Ok []
  ∧ detect_in_frame Examples.names (7 # 10)
      (Ok [Some [Examples.car_box (9 # 10)]])
    ≠ Ok (sighting_of <$> spec_filter "car" (7 # 10)
            [Examples.raw "car" (Examples.car_box (9 # 10))]).
Proof.
  repeat split; [vm_compute; reflexivity..|]. vm_compute. discriminate.
Qed.

(** ** Signal controller *)

Lemma trigger_when_active s :
  emergency_active s = true → trigger_emergency_protocol s = s.
Proof. intros H. unfold trigger_emergency_protocol. by rewrite H. Qed.

Lemma init_agrees names threshold : signal_agrees (init names threshold).
Proof. by split; split. Qed.

Lemma trigger_agrees s :
  signal_agrees s → signal_agrees (trigger_emergency_protocol s).
Proof.
  intros Hs. destruct (emergency_active s) eqn:Hact.
  - by rewrite trigger_when_active.
  - unfold trigger_emergency_protocol. rewrite Hact. by split; split.
Qed.

Lemma reset_agrees s : signal_agrees (reset_emergency_protocol s).
Proof. by split; split. Qed.

Lemma on_sightings_agrees detections s :
  signal_agrees s → signal_agrees (on_sightings detections s).
Proof.
  intros Hs. destruct detections; [done|]. by apply trigger_agrees.
Qed.

Lemma timer_fire_agrees s : signal_agrees s → signal_agrees (timer_fire s).
Proof.
  intros Hs. unfold timer_fire. destruct (timers s); [done|].
  apply reset_agrees.
Qed.

Lemma on_sightings_single_flight detections s :
  single_flight s → single_flight (on_sightings detections s).
Proof.
  unfold single_flight, on_sightings, trigger_emergency_protocol.
  destruct detections; [done|]. simpl.
  destruct (emergency_active s); simpl; [done|]. by intros ->.
Qed.

Lemma timer_fire_single_flight s :
  single_flight s → single_flight (timer_fire s).
Proof.
  unfold single_flight, timer_fire.
  destruct (emergency_active s) eqn:Hact; intros Ht.
  - destruct (timers s) as [|t [|]]; simpl in *; done.
  - by rewrite Ht, Hact.
Qed.

(** What an iteration does to the system: the effect of lines 154-156 when
    detection returned, nothing when it raised. *)
Lemma iteration_sys getTextSize io st :
  sys (iteration getTextSize io st).2
  = match detect_in_frame (model_names (sys st))
            (confidence_threshold (sys st)) (inference io) with
    | Ok detections => on_sightings detections (sys st)
    | Raise _ => sys st
    end.
Proof.
  unfold iteration.
  destruct (detect_in_frame _ _ _) as [detections|e]; [|done].
  destruct (render_error io); [done|].
  destruct (Py.div 1 _); [|done].
  destruct (Py.div (Py.sum _) _); [|done].
  by destruct (Z.land _ _ =? _).
Qed.

Lemma event_step_sys getTextSize ev st :
  sys (event_step getTextSize ev st).2
  = match ev with
    | EvFrame io =>
        match detect_in_frame (model_names (sys st))
                (confidence_threshold (sys st)) (inference io) with
        | Ok detections => on_sightings detections (sys st)
        | Raise _ => sys st
        end
    | EvTimer => timer_fire (sys st)
    end.
Proof. destruct ev; [apply iteration_sys | done]. Qed.

Lemma reachable_invariant getTextSize st :
  reachable getTextSize st →
  signal_agrees (sys st) ∧ single_flight (sys st).
Proof.
  induction 1 as [names threshold|ev st _ [IHa IHs]].
  - split; [by split; split | done].
  - rewrite event_step_sys. destruct ev as [io|].
    + destruct (detect_in_frame _ _ _); [|done].
      split; [by apply on_sightings_agrees
             | by apply on_sightings_single_flight].
    + split; [by apply timer_fire_agrees | by apply timer_fire_single_flight].
Qed.

Lemma on_sightings_when_active detections s :
  emergency_active s = true →
  let s' := on_sightings detections s in
  emergency_active s' = true
  ∧ traffic_signal_state s' = traffic_signal_state s
  ∧ signal_changes (stats s') = signal_changes (stats s)
  ∧ timers s' = timers s
  ∧ log s' = log s.
Proof.
  intros Hact. destruct detections as [|d detections]; simpl; [done|].
  rewrite trigger_when_active by done. done.
Qed.

Lemma repeated_sightings_when_active batches : ∀ s,
  emergency_active s = true →
  let s' := fold_left (λ s detections, on_sightings detections s) batches s in
  emergency_active s' = true
  ∧ traffic_signal_state s' = traffic_signal_state s
  ∧ signal_changes (stats s') = signal_changes (stats s)
  ∧ timers s' = timers s
  ∧ log s' = log s.
Proof.
  induction batches as [|detections batches IH]; intros s Hact; simpl; [done|].
  destruct (on_sightings_when_active detections s Hact)
    as (Hact' & Hsig & Hchg & Htim & Hlog).
  destruct (IH _ Hact') as (? & ? & ? & ? & ?).
  repeat split; congruence.
Qed.

(** C1.  A call of [trigger_emergency_protocol] made while
    [emergency_active] is true changes nothing at all; the loop's handling
    of a non-empty list of sightings in that state keeps the flag, the
    signal, [signal_changes], the pending timers and the log as they were.
    Starting from the normal state, any number of non-empty batches of
    sightings handled with no timer firing in between raises
    [signal_changes] by exactly one and starts exactly one timer. *)
Theorem retrigger_is_noop :
  (∀ s, emergency_active s = true → trigger_emergency_protocol s = s)
  ∧ (∀ s detections,
       emergency_active s = true → detections ≠ [] →
       let s' := on_sightings detections s in
       emergency_active s' = true
       ∧ traffic_signal_state s' = traffic_signal_state s
       ∧ signal_changes (stats s') = signal_changes (stats s)
       ∧ timers s' = timers s
       ∧ log s' = log s)
  ∧ (∀ s (first : list Detection) (others : list (list Detection)),
       emergency_active s = false → first ≠ [] →
       let s' :=
         fold_left (λ s detections, on_sightings detections s)
           (first :: others) s in
       emergency_active s' = true
       ∧ signal_changes (stats s') = signal_changes (stats s) + 1
       ∧ timers s' = timers s ++ [30%Q]).
Proof.
  split; [exact trigger_when_active|]. split.
  - intros s detections Hact _. by apply on_sightings_when_active.
  - intros s first others Hnorm Hfirst. simpl.
    destruct first as [|d first]; [done|].
    set (s1 := on_sightings (d :: first) s).
    assert (emergency_active s1 = true
            ∧ signal_changes (stats s1) = signal_changes (stats s) + 1
            ∧ timers s1 = timers s ++ [30%Q]) as (Hact & Hchg & Htim).
    { subst s1. unfold on_sightings, trigger_emergency_protocol. simpl.
      by rewrite Hnorm. }
    destruct (repeated_sightings_when_active others s1 Hact)
      as (? & _ & ? & ? & _).
    repeat split; congruence.
Qed.

Lemma retrigger_is_noop_witness :
  let s := on_sightings [detection_of (Examples.ambulance_box (9 # 10))]
             Examples.fresh in
  trigger_emergency_protocol s = s
  ∧ signal_changes
      (stats (on_sightings
                [detection_of (Examples.ambulance_box (8 # 10))] s)) = 1
  ∧ timers
      (fold_left (λ s detections, on_sightings detections s)
         [ [detection_of (Examples.ambulance_box (9 # 10))];
           [detection_of (Examples.ambulance_box (8 # 10))];
           [] ] Examples.fresh) = [30%Q].
Proof.
  destruct retrigger_is_noop as (Hnoop & Hkeep & Honce).
  intros s. split; [|split].
  - apply Hnoop. reflexivity.
  - destruct (Hkeep s [detection_of (Examples.ambulance_box (8 # 10))]
                eq_refl ltac:(discriminate)) as (_ & _ & Hchg & _).
    rewrite Hchg. reflexivity.
  - destruct (Honce Examples.fresh
                [detection_of (Examples.ambulance_box (9 # 10))]
                [ [detection_of (Examples.ambulance_box (8 # 10))]; [] ]
                eq_refl ltac:(discriminate)) as (_ & _ & Htim).
    rewrite Htim. reflexivity.
Defined.

(** C3.  In every state the loop can be in, and for every event: from
    NORMAL the controller moves to EMERGENCY exactly when the event is a
    frame whose detection returns a non-empty list of sightings; from
    EMERGENCY it moves to NORMAL exactly when the event is the timer firing.
    Every other event leaves the state where it was, and the step is a
    total function. *)
Theorem transitions_total_minimal getTextSize st ev :
  reachable getTextSize st →
  let st' := (event_step getTextSize ev st).2 in
  (currentState (sys st) = NORMAL →
   (currentState (sys st') = EMERGENCY ↔
    ∃ io detections,
      ev = EvFrame io
      ∧ detect_in_frame (model_names (sys st))
          (confidence_threshold (sys st)) (inference io) = Ok detections
      ∧ detections ≠ []))
  ∧ (currentState (sys st) = EMERGENCY →
     (currentState (sys st') = NORMAL ↔ ev = EvTimer)).
Proof.
  intros Hreach. destruct (reachable_invariant _ _ Hreach) as [_ Hflight].
  simpl. rewrite event_step_sys. unfold currentState, single_flight in *.
  destruct (emergency_active (sys st)) eqn:Hact; (split; [|]); try done;
    intros _.
  - (* EMERGENCY *)
    destruct ev as [io|].
    + split; [|done].
      destruct (detect_in_frame _ _ _) as [detections|e].
      * destruct (on_sightings_when_active detections _ Hact) as [-> _]. done.
      * by rewrite Hact.
    + split; [done|]. intros _. unfold timer_fire.
      destruct (timers (sys st)); [done|]. done.
  - (* NORMAL *)
    destruct ev as [io|].
    + destruct (detect_in_frame _ _ _) as [detections|e] eqn:Hdet.
      * destruct detections as [|d detections].
        -- simpl. rewrite Hact. split; [done|].
           intros (io' & detections' & [= <-] & Hdet' & Hne). congruence.
        -- split.
           ++ intros _. exists io, (d :: detections). by rewrite Hdet.
           ++ intros _. unfold on_sightings, trigger_emergency_protocol.
              simpl. by rewrite Hact.
      * rewrite Hact. split; [done|].
        intros (io' & detections' & [= <-] & Hdet' & _). congruence.
    + unfold timer_fire. rewrite Hflight, Hact. split; [done|].
      by intros (? & ? & ? & _).
Qed.

Lemma transitions_total_minimal_witness :
  currentState
    (sys (event_step Examples.getTextSize
            (EvFrame (Examples.frame_with
                        [Examples.ambulance_box (9 # 10)] (1 # 20)))
            Examples.start).2) = EMERGENCY.
Proof.
  apply (transitions_total_minimal Examples.getTextSize Examples.start
           (EvFrame (Examples.frame_with
                       [Examples.ambulance_box (9 # 10)] (1 # 20)))
           (reachable_start _ _ _)); [reflexivity|].
  eexists _, _. split; [reflexivity|]. split; [reflexivity|discriminate].
Defined.

(** C4.  [reset_emergency_protocol] sets the flag to false and the signal to
    RED from every state and keeps both counters; so does a pending timer
    when it fires.
    Whatever the event, [signal_changes] can only change on a step from
    NORMAL to EMERGENCY, and then it goes up by one. *)
Theorem reset_keeps_counters getTextSize :
  (∀ s, let s' := reset_emergency_protocol s in
        emergency_active s' = false
        ∧ traffic_signal_state s' = "RED"
        ∧ currentState s' = NORMAL
        ∧ stats s' = stats s)
  ∧ (∀ s, stats (timer_fire s) = stats s
          ∧ (timers s ≠ [] →
             emergency_active (timer_fire s) = false
             ∧ traffic_signal_state (timer_fire s) = "RED"))
  ∧ (∀ ev st,
       let st' := (event_step getTextSize ev st).2 in
       signal_changes (stats (sys st')) ≠ signal_changes (stats (sys st)) →
       currentState (sys st) = NORMAL
       ∧ currentState (sys st') = EMERGENCY
       ∧ signal_changes (stats (sys st'))
         = signal_changes (stats (sys st)) + 1).
Proof.
  split; [done|]. split.
  - intros s. unfold timer_fire. by destruct (timers s).
  - intros ev st. simpl. rewrite event_step_sys. unfold currentState.
    destruct ev as [io|].
    + destruct (detect_in_frame _ _ _) as [[|d detections]|e]; [done| |done].
      destruct (emergency_active (sys st)) eqn:Hact.
      * destruct (on_sightings_when_active (d :: detections) _ Hact)
          as (_ & _ & -> & _). done.
      * unfold on_sightings, trigger_emergency_protocol. simpl.
        rewrite Hact. done.
    + unfold timer_fire. by destruct (timers (sys st)).
Qed.

Lemma reset_keeps_counters_witness :
  let st := (event_step Examples.getTextSize
               (EvFrame (Examples.frame_with
                           [Examples.ambulance_box (9 # 10)] (1 # 20)))
               Examples.start).2 in
  signal_changes (stats (sys st)) = 1
  ∧ stats (reset_emergency_protocol (sys st)) = stats (sys st).
Proof.
  destruct (reset_keeps_counters Examples.getTextSize) as (Hreset & _ & Honly).
  intros st. subst st. split.
  - destruct (Honly (EvFrame (Examples.frame_with
                               [Examples.ambulance_box (9 # 10)] (1 # 20)))
                Examples.start ltac:(vm_compute; discriminate))
      as (_ & _ & ->).
    reflexivity.
  - apply Hreset.
Defined.

(** ** Statistics *)

Lemma stats_le_refl s : stats_le s s.
Proof. unfold stats_le. lia. Qed.

Lemma stats_le_trans a b c : stats_le a b → stats_le b c → stats_le a c.
Proof. unfold stats_le. lia. Qed.

Lemma trigger_stats_le s : stats_le s (trigger_emergency_protocol s).
Proof.
  unfold stats_le, trigger_emergency_protocol.
  destruct (emergency_active s); simpl; lia.
Qed.

Lemma on_sightings_stats_le detections s :
  stats_le s (on_sightings detections s).
Proof.
  destruct detections as [|d detections]; [apply stats_le_refl|].
  unfold on_sightings. eapply stats_le_trans; [|apply trigger_stats_le].
  unfold stats_le, Py.len. simpl. lia.
Qed.

Lemma timer_fire_stats_le s : stats_le s (timer_fire s).
Proof.
  unfold timer_fire, stats_le. destruct (timers s); simpl; lia.
Qed.

Lemma event_step_stats_le getTextSize ev st :
  stats_le (sys st) (sys (event_step getTextSize ev st).2).
Proof.
  rewrite event_step_sys. destruct ev as [io|].
  - destruct (detect_in_frame _ _ _);
      [apply on_sightings_stats_le | apply stats_le_refl].
  - apply timer_fire_stats_le.
Qed.

Lemma while_true_stats_le getTextSize events : ∀ st,
  stats_le (sys st) (sys (while_true getTextSize events st).1.2).
Proof.
  induction events as [|ev events IH]; intros st; simpl.
  - unfold stats_le. simpl. lia.
  - pose proof (event_step_stats_le getTextSize ev st) as Hstep.
    destruct (event_step getTextSize ev st) as [[| |e] st']; simpl in *.
    + eapply stats_le_trans; [exact Hstep | apply IH].
    + exact Hstep.
    + exact Hstep.
Qed.

Lemma while_true_prefix_stats_le getTextSize earlier later : ∀ st,
  stats_le (sys (while_true getTextSize earlier st).1.2)
           (sys (while_true getTextSize (earlier ++ later) st).1.2).
Proof.
  induction earlier as [|ev earlier IH]; intros st.
  - eapply stats_le_trans; [|apply while_true_stats_le].
    unfold stats_le. simpl. lia.
  - simpl. destruct (event_step getTextSize ev st) as [[| |e] st'];
      [apply IH | apply stats_le_refl..].
Qed.

(** C8.  No event lowers [total_detections] or [signal_changes]: each
    step of a run leaves both at least as large as before, so does the
    whole loop from any point of a run, the counters reached after part of
    a run are never above those reached after more of it, and
    [process_video_stream] ends with counters no lower than it started
    with. *)
Theorem counters_never_decrease getTextSize :
  (∀ ev st, stats_le (sys st) (sys (event_step getTextSize ev st).2))
  ∧ (∀ events st,
       stats_le (sys st) (sys (while_true getTextSize events st).1.2))
  ∧ (∀ earlier later st,
       stats_le (sys (while_true getTextSize earlier st).1.2)
                (sys (while_true getTextSize (earlier ++ later) st).1.2))
  ∧ (∀ opened events s,
       stats_le s
         (sys (process_video_stream getTextSize opened events s).1.2)).
Proof.
  split; [apply event_step_stats_le|]. split; [apply while_true_stats_le|].
  split; [apply while_true_prefix_stats_le|].
  intros opened events s. unfold process_video_stream.
  destruct opened; simpl; [|unfold stats_le; simpl; lia].
  pose proof (while_true_stats_le getTextSize events
                {| sys := write_log LogStarting s; fps_counter := [];
                   shown := [] |}) as Hloop.
  destruct (while_true _ _ _) as [[outcome st'] rest].
  unfold stats_le in *. simpl in *. lia.
Qed.

(** ** The flag and the colour *)






(** ** FPS window *)

Section Window.

Variable maxlen : nat.

Lemma deque_append_drop (w : list Q) (x : Q) :
  (length w ≤ maxlen)%nat →
  deque_append maxlen w x
  = drop (length (w ++ [x]) - maxlen) (w ++ [x]).
Proof.
  intros Hw. unfold deque_append. rewrite length_app. simpl.
  destruct (Nat.ltb_spec maxlen (length w + 1)) as [Hlt|Hge].
  - replace (length w + 1 - maxlen)%nat with 1%nat by lia. done.
  - replace (length w + 1 - maxlen)%nat with 0%nat by lia. done.
Qed.

Lemma deque_append_length (w : list Q) (x : Q) :
  (length w ≤ maxlen)%nat →
  (length (deque_append maxlen w x) ≤ maxlen)%nat.
Proof.
  intros Hw. unfold deque_append.
  destruct (Nat.ltb_spec maxlen (length (w ++ [x]))) as [Hlt|Hge].
  - rewrite length_drop, length_app. simpl. lia.
  - done.
Qed.

(** After any number of appends the window is the last [maxlen] samples
    of everything that went in. *)
Lemma window_drop (xs : list Q) : ∀ w,
  (length w ≤ maxlen)%nat →
  fold_left (deque_append maxlen) xs w
  = drop (length (w ++ xs) - maxlen) (w ++ xs).
Proof.
  induction xs as [|x xs IH]; intros w Hw; simpl.
  - rewrite app_nil_r.
    replace (length w - maxlen)%nat with 0%nat by lia. done.
  - rewrite IH by (by apply deque_append_length).
    rewrite deque_append_drop by done.
    rewrite !length_app, length_drop, !length_app. simpl.
    rewrite (cons_middle x w xs), app_assoc.
    destruct (decide (length w = maxlen)) as [Heq|Hne].
    + replace (length w + 1 - maxlen)%nat with 1%nat by lia.
      replace (length w + 1 - 1 + length xs - maxlen)%nat
        with (length xs) by lia.
      replace (length w + S (length xs) - maxlen)%nat
        with (S (length xs)) by lia.
      destruct (w ++ [x]) eqn:Hwx; [by destruct w|].
      simpl. by rewrite drop_0.
    + replace (length w + 1 - maxlen)%nat with 0%nat by lia.
      rewrite drop_0. f_equal. lia.
Qed.

Lemma window_length (xs : list Q) : ∀ w,
  (length w ≤ maxlen)%nat →
  (length (fold_left (deque_append maxlen) xs w) ≤ maxlen)%nat.
Proof.
  induction xs as [|x xs IH]; intros w Hw; simpl; [done|].
  by apply IH, deque_append_length.
Qed.

End Window.

Lemma deque_append_nonempty (w : list Q) (x : Q) :
  (0 < length (deque_append 30 w x))%nat.
Proof.
  unfold deque_append.
  destruct (Nat.ltb_spec 30 (length (w ++ [x]))) as [Hlt|Hge].
  - rewrite length_drop. lia.
  - rewrite length_app. simpl. lia.
Qed.

Lemma sum_from (xs : list Q) : ∀ a,
  (fold_left Qplus xs a == a + fold_right Qplus 0 xs)%Q.
Proof.
  induction xs as [|x xs IH]; intros a; simpl.
  - by rewrite Qplus_0_r.
  - rewrite IH. by rewrite Qplus_assoc.
Qed.

Lemma sum_is_mean_numerator (xs : list Q) :
  (Py.sum xs == fold_right Qplus 0 xs)%Q.
Proof. unfold Py.sum. rewrite sum_from. apply Qplus_0_l. Qed.

Lemma len_not_zero {A} (xs : list A) :
  (0 < length xs)%nat → Qeq_bool (inject_Z (Py.len xs)) 0 = false.
Proof.
  intros Hlen. apply not_true_is_false. intros Heq.
  apply Qeq_bool_eq in Heq. unfold Qeq, inject_Z, Py.len in Heq.
  simpl in Heq. lia.
Qed.

Lemma div_nonzero (a b : Q) :
  ¬ (b == 0)%Q → Py.div a b = Ok (a / b)%Q.
Proof.
  intros Hb. unfold Py.div.
  destruct (Qeq_bool b 0) eqn:Heq; [|done].
  by apply Qeq_bool_eq in Heq.
Qed.

Lemma div_zero (a b : Q) :
  (b == 0)%Q → Py.div a b = Raise ZeroDivisionError.
Proof.
  intros Hb. unfold Py.div. apply Qeq_eq_bool in Hb. by rewrite Hb.
Qed.

(** What an iteration does when detection and drawing succeed and the
    elapsed time is not zero. *)
Lemma iteration_completes getTextSize io st detections :
  detect_in_frame (model_names (sys st)) (confidence_threshold (sys st))
    (inference io) = Ok detections →
  render_error io = None →
  ¬ (processing_time io == 0)%Q →
  let s := on_sightings detections (sys st) in
  let w := deque_append 30 (fps_counter st) (1 / processing_time io)%Q in
  let frame :=
    draw (PutText
            (Fixed "FPS: " 1 (Py.sum w / inject_Z (Py.len w))%Q)
            (10, 30) (7 # 10) (0, 255, 0) 2)
      (add_info_overlay s
         (draw_detections getTextSize (image io) detections)) in
  iteration getTextSize io st
  = (if Z.land (key io) 255 =? 113 then Break else Next,
     {| sys := s; fps_counter := w; shown := shown st ++ [frame] |}).
Proof.
  intros Hdet Hrender Htime. unfold iteration.
  rewrite Hdet, Hrender, (div_nonzero _ _ Htime).
  unfold Py.div at 1. rewrite len_not_zero by apply deque_append_nonempty.
  by destruct (Z.land _ _ =? _).
Qed.

Lemma avg_is_mean (w : list Q) :
  (0 < length w)%nat →
  (Py.sum w / inject_Z (Py.len w) == arithmetic_mean w)%Q.
Proof.
  intros Hlen. destruct w as [|x w]; [simpl in Hlen; lia|].
  unfold arithmetic_mean, Py.len.
  by rewrite sum_is_mean_numerator.
Qed.

(** C6.  The window never holds more than 30 samples and an append to a
    full window drops the oldest one; after any sequence of appends it is
    the last 30 samples appended (all of them if fewer), so once 30 samples
    have followed any others, the window is those 30 whatever came before.
    An iteration that completes appends [1 / processing_time] and writes on
    the frame it shows the sum of the window over its length, which is the
    arithmetic mean of the window's contents. *)
Theorem fps_window_mean getTextSize :
  (∀ samples,
     let w := fold_left (deque_append 30) samples [] in
     (length w ≤ 30)%nat ∧ w = drop (length samples - 30) samples)
  ∧ (∀ w x, length w = 30%nat → deque_append 30 w x = drop 1 w ++ [x])
  ∧ (∀ w0 older recent,
       (length w0 ≤ 30)%nat → length recent = 30%nat →
       fold_left (deque_append 30) (older ++ recent) w0 = recent)
  ∧ (∀ io st detections,
       detect_in_frame (model_names (sys st)) (confidence_threshold (sys st))
         (inference io) = Ok detections →
       render_error io = None →
       ¬ (processing_time io == 0)%Q →
       let st' := (iteration getTextSize io st).2 in
       fps_counter st'
       = deque_append 30 (fps_counter st) (1 / processing_time io)%Q
       ∧ ∃ frame avg_fps,
           last (shown st') = Some frame
           ∧ last (canvas frame)
             = Some (PutText (Fixed "FPS: " 1 avg_fps) (10, 30) (7 # 10)
                       (0, 255, 0) 2)
           ∧ (avg_fps == arithmetic_mean (fps_counter st'))%Q).
Proof.
  split; [|split; [|split]].
  - intros samples. simpl. split.
    + apply window_length. simpl. lia.
    + rewrite window_drop by (simpl; lia). done.
  - intros w x Hlen. unfold deque_append.
    rewrite length_app, Hlen. simpl.
    destruct w as [|y w]; [done|]. simpl. by rewrite drop_0.
  - intros w0 older recent Hw0 Hrecent.
    rewrite window_drop by done.
    rewrite app_assoc, (length_app (w0 ++ older)), Hrecent.
    replace (length (w0 ++ older) + 30 - 30)%nat
      with (length (w0 ++ older)) by lia.
    apply drop_app_length.
  - intros io st detections Hdet Hrender Htime.
    rewrite (iteration_completes getTextSize io st detections) by done.
    simpl. split; [done|].
    eexists _, _. rewrite last_snoc. split; [done|].
    unfold draw. simpl. rewrite last_snoc. split; [done|].
    apply avg_is_mean, deque_append_nonempty.
Qed.

Lemma fps_window_mean_witness :
  fold_left (deque_append 30)
    (((λ n, inject_Z (Z.of_nat n)) <$> seq 0 5)
     ++ ((λ n, inject_Z (Z.of_nat n)) <$> seq 5 30)) []
  = (λ n, inject_Z (Z.of_nat n)) <$> seq 5 30.
Proof.
  destruct (fps_window_mean Examples.getTextSize) as (_ & _ & Hrecent & _).
  apply Hrecent.
  - apply Nat.le_0_l.
  - reflexivity.
Defined.

Lemma inverse_of_negative (p : Q) : (p < 0)%Q → (1 / p < 0)%Q.
Proof.
  destruct p as [[|n|n] d]; unfold Qlt, Qdiv, Qmult, Qinv; simpl; lia.
Qed.

(** C7 (amended).  The division [1.0 / processing_time] has no guard.  In
    an iteration whose detection and drawing succeed: a zero elapsed time
    raises [ZeroDivisionError] out of the iteration, after the sightings
    were handled and with the window as it was; any other elapsed time,
    negative ones included, raises nothing and appends
    [1 / processing_time] to the window, which is negative when the elapsed
    time is. *)
Theorem fps_division_unguarded getTextSize io st detections :
  detect_in_frame (model_names (sys st)) (confidence_threshold (sys st))
    (inference io) = Ok detections →
  render_error io = None →
  ((processing_time io == 0)%Q →
   iteration getTextSize io st
   = (Raised ZeroDivisionError,
      with_sys (on_sightings detections (sys st)) st))
  ∧ (¬ (processing_time io == 0)%Q →
     (∀ e, (iteration getTextSize io st).1 ≠ Raised e)
     ∧ fps_counter (iteration getTextSize io st).2
       = deque_append 30 (fps_counter st) (1 / processing_time io)%Q)
  ∧ ((processing_time io < 0)%Q → (1 / processing_time io < 0)%Q).
Proof.
  intros Hdet Hrender. split; [|split].
  - intros Hzero. unfold iteration.
    by rewrite Hdet, Hrender, (div_zero _ _ Hzero).
  - intros Htime.
    rewrite (iteration_completes getTextSize io st detections) by done.
    simpl. split; [|done]. intros e. by destruct (Z.land _ _ =? _).
  - apply inverse_of_negative.
Qed.

Lemma fps_division_unguarded_witness :
  fps_counter
    (iteration Examples.getTextSize (Examples.frame_with [] (-1 # 20))
       Examples.start).2
  = [(-20 # 1)%Q].
Proof.
  destruct (fps_division_unguarded Examples.getTextSize
              (Examples.frame_with [] (-1 # 20)) Examples.start []
              eq_refl eq_refl) as (_ & Hother & _).
  destruct Hother as [_ ->]; [discriminate|reflexivity].
Defined.

(** C7 as stated fails: with an elapsed time of zero the iteration ends in
    [ZeroDivisionError], and the exception leaves [process_video_stream]. *)
Lemma zero_elapsed_time_raises :
  (iteration Examples.getTextSize (Examples.frame_with [] 0)
     Examples.start).1
  = Raised ZeroDivisionError
  ∧ (process_video_stream Examples.getTextSize true
       [EvFrame (Examples.frame_with [] 0)] Examples.fresh).1.1
    = Raise ZeroDivisionError.
Proof. split; vm_compute; reflexivity. Qed.

(** ** Failures inside the loop *)

(** C5 (amended).  The loop has no handler for a failing frame.  When
    detection raises on a frame, the loop is left with that exception, the
    loop variables are what they were and the frames after it are not read.
    When a drawing call raises, the loop is left with that exception after
    the sightings of the frame were handled, so the controller has taken the
    frame's effect and its flag and signal still agree.  In both cases the
    only thing logged is the "stopped" message of the [finally] block, after
    which the exception leaves [process_video_stream].  The loop is also
    left, without exception, on the quit key. *)
Theorem frame_error_ends_loop getTextSize io rest st e :
  (detect_in_frame (model_names (sys st)) (confidence_threshold (sys st))
     (inference io) = Raise e →
   while_true getTextSize (EvFrame io :: rest) st = (Raise e, st, rest))
  ∧ (∀ detections,
       detect_in_frame (model_names (sys st)) (confidence_threshold (sys st))
         (inference io) = Ok detections →
       render_error io = Some e →
       while_true getTextSize (EvFrame io :: rest) st
       = (Raise e, with_sys (on_sightings detections (sys st)) st, rest)
       ∧ (signal_agrees (sys st) →
          signal_agrees (on_sightings detections (sys st))))
  ∧ (∀ s events st',
       while_true getTextSize events
         {| sys := write_log LogStarting s; fps_counter := []; shown := [] |}
       = (Raise e, st', rest) →
       process_video_stream getTextSize true events s
       = (Raise e, with_sys (write_log LogStopped (sys st')) st', rest))
  ∧ (∀ st', iteration getTextSize io st = (Break, st') →
       while_true getTextSize (EvFrame io :: rest) st = (Ok tt, st', rest)).
Proof.
  split; [|split; [|split]].
  - intros Hdet. simpl. unfold iteration. by rewrite Hdet.
  - intros detections Hdet Hrender. split.
    + simpl. unfold iteration. by rewrite Hdet, Hrender.
    + apply on_sightings_agrees.
  - intros s events st' Hloop. unfold process_video_stream. simpl.
    by rewrite Hloop.
  - intros st' Hbreak. simpl. by rewrite Hbreak.
Qed.

Lemma frame_error_ends_loop_witness :
  while_true Examples.getTextSize
    [ EvFrame Examples.failing_render;
      EvFrame (Examples.frame_with [Examples.ambulance_box (9 # 10)] (1 # 20)) ]
    Examples.start
  = (Raise (ExternalError 2),
     with_sys
       (on_sightings [detection_of (Examples.ambulance_box (9 # 10))]
          (sys Examples.start))
       Examples.start,
     [ EvFrame
         (Examples.frame_with [Examples.ambulance_box (9 # 10)] (1 # 20)) ]).
Proof.
  destruct (frame_error_ends_loop Examples.getTextSize Examples.failing_render
              [ EvFrame (Examples.frame_with
                           [Examples.ambulance_box (9 # 10)] (1 # 20)) ]
              Examples.start (ExternalError 2)) as (_ & Hrender & _).
  apply (Hrender [detection_of (Examples.ambulance_box (9 # 10))]);
    reflexivity.
Defined.

(** C5 as stated fails: when inference fails on the first of two frames,
    [process_video_stream] is left with the exception; the second frame,
    which shows an ambulance, is never read, so nothing is counted and the
    signal stays red, and the log holds no entry for the failure.  Had the
    failing frame been skipped, the second frame would have been counted
    and the signal turned green. *)
Lemma frame_error_aborts_stream :
  let good :=
    EvFrame (Examples.frame_with [Examples.ambulance_box (9 # 10)] (1 # 20)) in
  process_video_stream Examples.getTextSize true
    [EvFrame Examples.failing_inference; good] Examples.fresh
  = (Raise (ExternalError 1),
     {| sys := write_log LogStopped (write_log LogStarting Examples.fresh);
        fps_counter := []; shown := [] |},
     [good])
  ∧ (let s := sys (process_video_stream Examples.getTextSize true [good]
                     Examples.fresh).1.2 in
     total_detections (stats s) = 1 ∧ emergency_active s = true).
Proof. split; [|split]; vm_compute; reflexivity. Qed.

(** ** Overlay *)

Lemma draw_detection_shape getTextSize frame d :
  let frame' := draw_detection getTextSize frame d in
  height frame' = height frame ∧ width frame' = width frame.
Proof.
  unfold draw_detection. by destruct (bbox d) as [[[b0 b1] b2] b3].
Qed.

Lemma draw_detection_canvas getTextSize frame d :
  canvas (draw_detection getTextSize frame d)
  = canvas frame ++
    let '(b0, b1, b2, b3) := bbox d in
    let label := Fixed "AMBULANCE " 2 (confidence d) in
    [ Rectangle (b0, b1) (b2, b3) (0, 0, 255) 2;
      Rectangle (b0, b1 - (getTextSize label).2 - 10)
        (b0 + (getTextSize label).1, b1 - 5) (0, 0, 255) (-1);
      PutText label (b0, b1 - 10) (6 # 10) (255, 255, 255) 2 ].
Proof.
  unfold draw_detection. destruct (bbox d) as [[[b0 b1] b2] b3]. simpl.
  by rewrite <- !app_assoc.
Qed.

(** C9 (amended).  [draw_detections] does no clamping and never looks at
    the size of the frame: for every frame and every list of detections it
    leaves the frame's size alone and issues, per detection and in order,
    the box rectangle with the four coordinates exactly as given, the label
    background and the label text.  It raises nothing of its own. *)
Theorem draw_detections_passes_coordinates getTextSize frame detections :
  let frame' := draw_detections getTextSize frame detections in
  height frame' = height frame
  ∧ width frame' = width frame
  ∧ canvas frame'
    = canvas frame ++
      flat_map
        (λ d, let '(b0, b1, b2, b3) := bbox d in
              let label := Fixed "AMBULANCE " 2 (confidence d) in
              [ Rectangle (b0, b1) (b2, b3) (0, 0, 255) 2;
                Rectangle (b0, b1 - (getTextSize label).2 - 10)
                  (b0 + (getTextSize label).1, b1 - 5) (0, 0, 255) (-1);
                PutText label (b0, b1 - 10) (6 # 10) (255, 255, 255) 2 ])
        detections
  ∧ (∀ d b0 b1 b2 b3,
       d ∈ detections → bbox d = (b0, b1, b2, b3) →
       Rectangle (b0, b1) (b2, b3) (0, 0, 255) 2 ∈ canvas frame').
Proof.
  simpl. revert frame.
  induction detections as [|d detections IH]; intros frame.
  - simpl. rewrite app_nil_r. repeat split. intros d ? ? ? ? Hin.
    by apply elem_of_nil in Hin.
  - unfold draw_detections in *. simpl fold_left.
    destruct (IH (draw_detection getTextSize frame d))
      as (Hh & Hw & Hc & Hin).
    destruct (draw_detection_shape getTextSize frame d) as [Hh' Hw'].
    split; [congruence|]. split; [congruence|]. split.
    + rewrite Hc, draw_detection_canvas. simpl flat_map.
      by rewrite <- app_assoc.
    + intros d' b0 b1 b2 b3 Hd' Hbox.
      apply elem_of_cons in Hd' as [->|Hd']; [|by eapply Hin].
      rewrite Hc, draw_detection_canvas, Hbox.
      apply elem_of_app. left. apply elem_of_app. right.
      apply elem_of_cons. by left.
Qed.

Lemma draw_detections_passes_coordinates_witness :
  Rectangle (-20, -10) (700, 500) (0, 0, 255) 2
  ∈ canvas (draw_detections Examples.getTextSize Examples.blank
              [Examples.oversized]).
Proof.
  destruct (draw_detections_passes_coordinates Examples.getTextSize
              Examples.blank [Examples.oversized]) as (_ & _ & _ & Hin).
  apply (Hin Examples.oversized); [|reflexivity].
  apply elem_of_cons. by left.
Defined.

(** C9 as stated fails: for a sighting whose box leaves the 640 x 480 frame,
    the box rectangle is issued with its corners as given, outside the
    bounds of the frame. *)
Lemma box_is_not_clamped :
  canvas (draw_detections Examples.getTextSize Examples.blank
            [Examples.oversized]) !! 0%nat
  = Some (Rectangle (-20, -10) (700, 500) (0, 0, 255) 2)
  ∧ ¬ within Examples.blank (-20, -10)
  ∧ ¬ within Examples.blank (700, 500).
Proof.
  split; [reflexivity|].
  unfold within. simpl. lia.
Qed.

(** * Further properties of the code *)

(** ** More on the detection filter *)

Lemma scan_boxes_outcome names threshold boxes : ∀ acc,
  scan_boxes names threshold boxes acc
  = if existsb (unnamed_box names threshold) boxes then Raise KeyError
    else Ok (acc ++ (detection_of <$>
                       List.filter (keeps_box names threshold) boxes)).
Proof.
  induction boxes as [|box rest IH]; intros acc; simpl.
  - by rewrite app_nil_r.
  - unfold unnamed_box at 1, keeps_box at 1.
    destruct (Py.gt (conf box) threshold); simpl; [|apply IH].
    destruct (names !! Py.int (cls box)) as [class_name|]; simpl; [|done].
    destruct (String.eqb (Py.lower class_name) "ambulance"); simpl.
    + rewrite IH. destruct (existsb _ rest); [done|].
      by rewrite <- app_assoc.
    + apply IH.
Qed.

Lemma scan_results_outcome names threshold results : ∀ acc,
  scan_results names threshold results acc
  = if existsb (unnamed_box names threshold) (boxes_of results)
    then Raise KeyError
    else Ok (acc ++ (detection_of <$>
                       List.filter (keeps_box names threshold)
                         (boxes_of results))).
Proof.
  induction results as [|[boxes|] rest IH]; intros acc; simpl.
  - by rewrite app_nil_r.
  - rewrite scan_boxes_outcome, existsb_app.
    destruct (existsb _ boxes); simpl; [done|].
    rewrite IH. destruct (existsb _ (boxes_of rest)); [done|].
    by rewrite List.filter_app, fmap_app, <- app_assoc.
  - apply IH.
Qed.

(** X1.  When inference returns, [detect_in_frame] either raises
    [KeyError], exactly when some box above the threshold has a class id
    with no name in the model's table, or returns the sightings of the
    boxes that pass both tests, in order.  A box at or below the threshold
    is never looked up, so an unnamed class id there is harmless. *)
Theorem detect_in_frame_outcome names threshold results :
  (detect_in_frame names threshold (Ok results) = Raise KeyError ↔
   ∃ box, box ∈ boxes_of results
          ∧ (threshold < conf box)%Q
          ∧ names !! Py.int (cls box) = None)
  ∧ ((∀ box, box ∈ boxes_of results → (threshold < conf box)%Q →
             is_Some (names !! Py.int (cls box))) →
     detect_in_frame names threshold (Ok results)
     = Ok (detection_of <$>
             List.filter (keeps_box names threshold) (boxes_of results))).
Proof.
  unfold detect_in_frame. simpl. rewrite scan_results_outcome.
  assert (existsb (unnamed_box names threshold) (boxes_of results) = true ↔
          ∃ box, box ∈ boxes_of results
                 ∧ (threshold < conf box)%Q
                 ∧ names !! Py.int (cls box) = None) as Hex.
  { rewrite existsb_exists. split.
    - intros (box & Hin & Hbox). exists box.
      apply list_elem_of_In in Hin. unfold unnamed_box in Hbox.
      apply andb_true_iff in Hbox as [Hgt Hname].
      apply gt_spec in Hgt.
      by destruct (names !! Py.int (cls box)).
    - intros (box & Hin & Hgt & Hname). exists box.
      apply list_elem_of_In in Hin. split; [done|].
      unfold unnamed_box. apply gt_spec in Hgt. by rewrite Hgt, Hname. }
  split.
  - rewrite <- Hex. by destruct (existsb _ _).
  - intros Hnamed. destruct (existsb _ _); [|done].
    destruct (proj1 Hex eq_refl) as (box & Hin & Hgt & Hname).
    destruct (Hnamed box Hin Hgt) as [? ?]. congruence.
Qed.

Lemma detect_in_frame_outcome_witness :
  detect_in_frame Examples.names (7 # 10)
    (Ok [Some [Examples.ambulance_box (9 # 10);
               Examples.faint_unnamed_box]])
  = Ok [detection_of (Examples.ambulance_box (9 # 10))].
Proof.
  refine (eq_trans
            (proj2 (detect_in_frame_outcome Examples.names (7 # 10)
                      [Some [Examples.ambulance_box (9 # 10);
                             Examples.faint_unnamed_box]]) _) _);
    [|reflexivity].
  intros box Hin Hgt. simpl in Hin.
  apply elem_of_cons in Hin as [->|Hin]; [by eexists|].
  apply elem_of_cons in Hin as [->|Hin]; [|by apply elem_of_nil in Hin].
  unfold Qlt in Hgt. simpl in Hgt. lia.
Defined.

(** X2.  How the model groups its boxes into results does not matter:
    [detect_in_frame] gives the same answer on the results as on one result
    holding all their boxes in order; results without boxes are skipped. *)
Theorem detect_in_frame_flattens names threshold results :
  detect_in_frame names threshold (Ok results)
  = detect_in_frame names threshold (Ok [Some (boxes_of results)]).
Proof.
  unfold detect_in_frame. simpl.
  rewrite scan_results_outcome, scan_boxes_outcome.
  by destruct (existsb _ _).
Qed.

Lemma existsb_impl {A} (f g : A → bool) (l : list A) :
  (∀ x, f x = true → g x = true) →
  existsb f l = true → existsb g l = true.
Proof.
  intros Himpl. rewrite !existsb_exists.
  intros (x & Hin & Hf). exists x. auto.
Qed.

Lemma filter_sublist_impl {A} (f g : A → bool) (l : list A) :
  (∀ x, f x = true → g x = true) →
  sublist (List.filter f l) (List.filter g l).
Proof.
  intros Himpl. induction l as [|x l IH]; simpl; [constructor|].
  destruct (f x) eqn:Hf.
  - rewrite (Himpl x Hf). by constructor.
  - destruct (g x); [by constructor|done].
Qed.

Lemma gt_weaken (c t1 t2 : Q) :
  (t1 <= t2)%Q → Py.gt c t2 = true → Py.gt c t1 = true.
Proof. rewrite !gt_spec. apply Qle_lt_trans. Qed.

(** X3.  Raising the threshold never adds a sighting and never adds a
    failure: if [detect_in_frame] returns at a threshold, then at every
    higher threshold it returns too, and what it returns is what is left of
    the first answer after dropping some sightings, in the same order. *)
Theorem raising_threshold_only_drops names t1 t2 results detections :
  (t1 <= t2)%Q →
  detect_in_frame names t1 (Ok results) = Ok detections →
  ∃ fewer,
    detect_in_frame names t2 (Ok results) = Ok fewer
    ∧ sublist fewer detections.
Proof.
  intros Hle. unfold detect_in_frame. simpl.
  rewrite !scan_results_outcome.
  destruct (existsb (unnamed_box names t1) _) eqn:Hany1; [done|].
  intros [= <-].
  destruct (existsb (unnamed_box names t2) _) eqn:Hany2.
  - apply (existsb_impl _ (unnamed_box names t1)) in Hany2; [congruence|].
    intros box. unfold unnamed_box. rewrite !andb_true_iff.
    intros [Hgt ?]. split; [by eapply gt_weaken|done].
  - eexists. split; [done|]. simpl. apply fmap_sublist.
    apply filter_sublist_impl. intros box. unfold keeps_box.
    rewrite !andb_true_iff. intros [Hgt ?].
    split; [by eapply gt_weaken|done].
Qed.

Lemma raising_threshold_only_drops_witness :
  ∃ fewer,
    detect_in_frame Examples.names (85 # 100) (Ok Examples.mixed_results)
    = Ok fewer
    ∧ sublist fewer
        [ detection_of (Examples.ambulance_box (9 # 10));
          detection_of (Examples.ambulance_box (8 # 10)) ].
Proof.
  apply (raising_threshold_only_drops Examples.names (7 # 10) (85 # 100)).
  - unfold Qle. simpl. lia.
  - reflexivity.
Defined.

Lemma int_near (x : Q) :
  (x - 1 < inject_Z (Py.int x))%Q ∧ (inject_Z (Py.int x) < x + 1)%Q.
Proof.
  destruct x as [n d].
  unfold Py.int, Qlt, Qminus, Qplus, Qopp, inject_Z. simpl.
  pose proof (Z.quot_rem' n (Z.pos d)) as Hqr.
  pose proof (Z.rem_bound_abs n (Z.pos d) ltac:(lia)) as Hb.
  split; nia.
Qed.

Lemma int_mono (x y : Q) : (x <= y)%Q → Py.int x ≤ Py.int y.
Proof.
  destruct x as [n d], y as [m e]. unfold Py.int, Qle. simpl. intros H.
  pose proof (Z.quot_rem' n (Z.pos d)) as Hqr.
  pose proof (Z.quot_rem' m (Z.pos e)) as Hqr'.
  set (q1 := n ÷ Z.pos d) in *. set (q2 := m ÷ Z.pos e) in *.
  set (r1 := Z.rem n (Z.pos d)) in *. set (r2 := Z.rem m (Z.pos e)) in *.
  assert (0 ≤ n → 0 ≤ r1 < Z.pos d) as Hr1
    by (intros; apply Z.rem_bound_pos; lia).
  assert (0 ≤ m → 0 ≤ r2 < Z.pos e) as Hr2
    by (intros; apply Z.rem_bound_pos; lia).
  assert (n ≤ 0 → - Z.pos d < r1 ≤ 0) as Hr1'
    by (intros; apply Z.rem_bound_pos_neg; lia).
  assert (m ≤ 0 → - Z.pos e < r2 ≤ 0) as Hr2'
    by (intros; apply Z.rem_bound_pos_neg; lia).
  destruct (Z_le_gt_dec q1 q2) as [|Hgt]; [done|]. exfalso.
  assert (0 < Z.pos d * Z.pos e) by lia.
  destruct (Z_le_gt_dec 0 n), (Z_le_gt_dec 0 m).
  - assert ((q2 + 1) * Z.pos d ≤ n) by nia.
    assert (m < (q2 + 1) * Z.pos e) by nia.
    assert ((q2 + 1) * Z.pos d * Z.pos e ≤ n * Z.pos e) by nia.
    assert (m * Z.pos d < (q2 + 1) * Z.pos e * Z.pos d) by nia.
    lia.
  - nia.
  - assert (q1 ≤ 0) by nia. assert (0 ≤ q2) by nia. lia.
  - assert (q1 * Z.pos d ≤ n) by nia.
    assert (m < q1 * Z.pos e) by nia.
    assert (m * Z.pos d < q1 * Z.pos e * Z.pos d) by nia.
    assert (q1 * Z.pos d * Z.pos e ≤ n * Z.pos e) by nia.
    lia.
Qed.

(** X4.  The sighting built from a box keeps the confidence, and each of
    its four integer coordinates differs from the model's by less than one.
    The order of the corners is kept, but only weakly: a box narrower than
    a pixel can become one of width or height zero. *)
Theorem sighting_box_is_truncated box :
  let '(x1, y1, x2, y2) := xyxy box in
  let '(a, b, c, d) := bbox (detection_of box) in
  confidence (detection_of box) = conf box
  ∧ ((x1 - 1 < inject_Z a)%Q ∧ (inject_Z a < x1 + 1)%Q)
  ∧ ((y1 - 1 < inject_Z b)%Q ∧ (inject_Z b < y1 + 1)%Q)
  ∧ ((x2 - 1 < inject_Z c)%Q ∧ (inject_Z c < x2 + 1)%Q)
  ∧ ((y2 - 1 < inject_Z d)%Q ∧ (inject_Z d < y2 + 1)%Q)
  ∧ ((x1 <= x2)%Q → a ≤ c)
  ∧ ((y1 <= y2)%Q → b ≤ d).
Proof.
  unfold detection_of. destruct (xyxy box) as [[[x1 y1] x2] y2]. simpl.
  split; [done|]. repeat split; try apply int_near; apply int_mono.
Qed.

Lemma sighting_box_is_truncated_witness :
  bbox (detection_of (Examples.ambulance_box (9 # 10)))
  = (100, 120, 300, 240)
  ∧ 100 ≤ 300.
Proof.
  split; [reflexivity|].
  pose proof (sighting_box_is_truncated (Examples.ambulance_box (9 # 10)))
    as Hbox.
  simpl in Hbox. destruct Hbox as (_ & _ & _ & _ & _ & Hx & _).
  apply Hx. unfold Qle. simpl. lia.
Defined.

(** ** More on the controller *)

Lemma on_sightings_cases detections s :
  on_sightings detections s
  = match detections with
    | [] => s
    | _ :: _ =>
        if emergency_active s then
          {| model_names := model_names s;
             confidence_threshold := confidence_threshold s;
             emergency_active := true;
             traffic_signal_state := traffic_signal_state s;
             stats := {| total_detections :=
                           total_detections (stats s) + Py.len detections;
                         signal_changes := signal_changes (stats s) |};
             timers := timers s;
             log := log s |}
        else
          {| model_names := model_names s;
             confidence_threshold := confidence_threshold s;
             emergency_active := true;
             traffic_signal_state := "GREEN";
             stats := {| total_detections :=
                           total_detections (stats s) + Py.len detections;
                         signal_changes := signal_changes (stats s) + 1 |};
             timers := timers s ++ [30%Q];
             log := log s ++ [LogEmergencyActivated] |}
    end.
Proof.
  destruct detections as [|d detections]; [done|].
  unfold on_sightings, trigger_emergency_protocol. simpl.
  by destruct (emergency_active s).
Qed.

Lemma reachable_accounting getTextSize st :
  reachable getTextSize st →
  timers (sys st) = (if emergency_active (sys st) then [30%Q] else [])
  ∧ signal_changes (stats (sys st))
    = Z.of_nat (length (List.filter is_activation (log (sys st))))
  ∧ length (List.filter is_activation (log (sys st)))
    = (length (List.filter is_reset (log (sys st)))
       + (if emergency_active (sys st) then 1 else 0))%nat
  ∧ 0 ≤ signal_changes (stats (sys st))
      ≤ total_detections (stats (sys st)).
Proof.
  induction 1 as [names threshold|ev st _ (Htim & Hchg & Hlog & Hle)].
  - simpl. repeat split; lia.
  - rewrite event_step_sys. destruct ev as [io|].
    + destruct (detect_in_frame _ _ _) as [detections|e]; [|done].
      rewrite on_sightings_cases.
      destruct detections as [|d detections]; [done|].
      assert (1 ≤ Py.len (d :: detections))
        by (unfold Py.len; simpl length; lia).
      destruct (emergency_active (sys st)) eqn:Hact; simpl.
      * repeat split; try done; lia.
      * rewrite Htim, !List.filter_app, !length_app. simpl.
        repeat split; try done; lia.
    + unfold timer_fire. rewrite Htim.
      destruct (emergency_active (sys st)) eqn:Hact; simpl.
      * rewrite !List.filter_app, !length_app. simpl.
        repeat split; try done; lia.
      * rewrite Hact. repeat split; try done; lia.
Qed.

(** X5.  In every state the loop can be in, the timers started and not
    yet fired are exactly one timer of 30 seconds while the emergency is
    active and none otherwise: there is never a second pending timer and
    never an emergency without one. *)
Theorem one_timer_of_thirty_seconds getTextSize st :
  reachable getTextSize st →
  timers (sys st) = (if emergency_active (sys st) then [30%Q] else []).
Proof. intros Hreach. by destruct (reachable_accounting _ _ Hreach). Qed.

Lemma one_timer_of_thirty_seconds_witness :
  timers
    (sys (event_step Examples.getTextSize
            (EvFrame (Examples.frame_with
                        [Examples.ambulance_box (9 # 10)] (1 # 20)))
            Examples.start).2)
  = [30%Q].
Proof.
  apply (one_timer_of_thirty_seconds Examples.getTextSize
           (event_step Examples.getTextSize
              (EvFrame (Examples.frame_with
                          [Examples.ambulance_box (9 # 10)] (1 # 20)))
              Examples.start).2).
  apply reachable_step, reachable_start.
Defined.

(** X6.  In every state the loop can be in, [signal_changes] is the number
    of "activated" entries in the log, and the number of "reset" entries is
    that number, less one while an emergency is active: every activation
    but a current one has been followed by its reset. *)
Theorem log_accounts_for_signal_changes getTextSize st :
  reachable getTextSize st →
  signal_changes (stats (sys st))
  = Z.of_nat (length (List.filter is_activation (log (sys st))))
  ∧ length (List.filter is_activation (log (sys st)))
    = (length (List.filter is_reset (log (sys st)))
       + (if emergency_active (sys st) then 1 else 0))%nat.
Proof.
  intros Hreach. destruct (reachable_accounting _ _ Hreach) as (_ & ? & ? & _).
  done.
Qed.

Lemma log_accounts_for_signal_changes_witness :
  let st :=
    (event_step Examples.getTextSize EvTimer
       (event_step Examples.getTextSize
          (EvFrame (Examples.frame_with
                      [Examples.ambulance_box (9 # 10)] (1 # 20)))
          Examples.start).2).2 in
  signal_changes (stats (sys st)) = 1
  ∧ length (List.filter is_reset (log (sys st))) = 1%nat.
Proof.
  intros st.
  destruct (log_accounts_for_signal_changes Examples.getTextSize st)
    as [Hchg Hlog].
  { subst st. do 2 apply reachable_step. apply reachable_start. }
  split; [rewrite Hchg; reflexivity | reflexivity].
Defined.

(** X7.  In every state the loop can be in, [signal_changes] is at most
    [total_detections] and neither is negative: the signal never changes
    without a sighting having been counted. *)
Theorem signal_changes_at_most_detections getTextSize st :
  reachable getTextSize st →
  0 ≤ signal_changes (stats (sys st)) ≤ total_detections (stats (sys st)).
Proof.
  intros Hreach.
  by destruct (reachable_accounting _ _ Hreach) as (_ & _ & _ & ?).
Qed.

Lemma signal_changes_at_most_detections_witness :
  let st :=
    (event_step Examples.getTextSize
       (EvFrame (Examples.frame_with
                   [Examples.ambulance_box (9 # 10);
                    Examples.ambulance_box (8 # 10)] (1 # 20)))
       Examples.start).2 in
  signal_changes (stats (sys st)) = 1
  ∧ total_detections (stats (sys st)) = 2
  ∧ 0 ≤ signal_changes (stats (sys st))
      ≤ total_detections (stats (sys st)).
Proof.
  intros st. split; [reflexivity|]. split; [reflexivity|].
  apply (signal_changes_at_most_detections Examples.getTextSize st).
  subst st. apply reachable_step, reachable_start.
Defined.

(** ** More on the stream loop *)

Lemma event_step_config getTextSize ev st :
  let s' := sys (event_step getTextSize ev st).2 in
  model_names s' = model_names (sys st)
  ∧ confidence_threshold s' = confidence_threshold (sys st)
  ∧ log (sys st) `prefix_of` log s'.
Proof.
  simpl. rewrite event_step_sys. destruct ev as [io|].
  - destruct (detect_in_frame _ _ _) as [detections|e]; [|done].
    rewrite on_sightings_cases. destruct detections; [done|].
    destruct (emergency_active (sys st)); simpl; repeat split; try done.
    by apply prefix_app_r.
  - unfold timer_fire. destruct (timers (sys st)); simpl; repeat split;
      try done.
    by apply prefix_app_r.
Qed.

Lemma while_true_config getTextSize events : ∀ st,
  let s' := sys (while_true getTextSize events st).1.2 in
  model_names s' = model_names (sys st)
  ∧ confidence_threshold s' = confidence_threshold (sys st)
  ∧ log (sys st) `prefix_of` log s'.
Proof.
  induction events as [|ev events IH]; intros st; simpl.
  - repeat split; try done. by apply prefix_app_r.
  - destruct (event_step_config getTextSize ev st) as (Hn & Ht & Hl).
    destruct (event_step getTextSize ev st) as [[| |e] st']; simpl in *;
      [|done..].
    destruct (IH st') as (Hn' & Ht' & Hl').
    repeat split; [congruence..|by etrans].
Qed.

(** X8.  Whatever the events and however it is left,
    [process_video_stream] never changes the model's name table or the
    confidence threshold, and it only ever appends to the log: the log it
    was given is a prefix of the log it leaves. *)
Theorem stream_keeps_configuration getTextSize opened events s :
  let s' := sys (process_video_stream getTextSize opened events s).1.2 in
  model_names s' = model_names s
  ∧ confidence_threshold s' = confidence_threshold s
  ∧ log s `prefix_of` log s'.
Proof.
  unfold process_video_stream. destruct opened; simpl.
  - pose proof (while_true_config getTextSize events
                  {| sys := write_log LogStarting s; fps_counter := [];
                     shown := [] |}) as Hloop.
    destruct (while_true _ _ _) as [[outcome st'] rest].
    simpl in *. destruct Hloop as (Hn & Ht & Hl).
    repeat split; [done..|].
    apply prefix_app_r. etrans; [|exact Hl]. by apply prefix_app_r.
  - repeat split; try done. by apply prefix_app_r.
Qed.

Lemma sightings_in_config s s' ev :
  model_names s' = model_names s →
  confidence_threshold s' = confidence_threshold s →
  sightings_in s' ev = sightings_in s ev.
Proof. intros Hn Ht. unfold sightings_in. by rewrite Hn, Ht. Qed.

Lemma event_step_total getTextSize ev st :
  total_detections (stats (sys (event_step getTextSize ev st).2))
  = total_detections (stats (sys st)) + sightings_in (sys st) ev.
Proof.
  rewrite event_step_sys. unfold sightings_in. destruct ev as [io|].
  - destruct (detect_in_frame _ _ _) as [detections|e]; [|lia].
    rewrite on_sightings_cases.
    destruct detections; [unfold Py.len; simpl; lia|].
    by destruct (emergency_active (sys st)).
  - unfold timer_fire. destruct (timers (sys st)); simpl; lia.
Qed.

Lemma while_true_total getTextSize events : ∀ st s0,
  model_names (sys st) = model_names s0 →
  confidence_threshold (sys st) = confidence_threshold s0 →
  ∃ consumed,
    events = consumed ++ (while_true getTextSize events st).2
    ∧ total_detections (stats (sys (while_true getTextSize events st).1.2))
      = total_detections (stats (sys st))
        + foldr (λ ev n, sightings_in s0 ev + n) 0 consumed.
Proof.
  induction events as [|ev events IH]; intros st s0 Hn Ht; simpl.
  - exists []. simpl. split; [done|lia].
  - pose proof (event_step_total getTextSize ev st) as Htot.
    destruct (event_step_config getTextSize ev st) as (Hn' & Ht' & _).
    rewrite (sightings_in_config s0 (sys st) ev) in Htot by done.
    destruct (event_step getTextSize ev st) as [[| |e] st']; simpl in *.
    + destruct (IH st' s0) as (consumed & Hev & Hsum); [congruence..|].
      exists (ev :: consumed). simpl. split; [by f_equal|lia].
    + exists [ev]. simpl. split; [done|lia].
    + exists [ev]. simpl. split; [done|lia].
Qed.

(** X9.  At the end of the loop, however it was left, [total_detections]
    has grown by exactly the number of sightings [detect_in_frame] returned
    for the events consumed, the frame on which the loop was left included;
    a frame whose detection raised and a timer firing count for nothing,
    and the events after the point where the loop was left are not
    counted. *)
Theorem total_detections_counts_sightings getTextSize events st :
  ∃ consumed,
    events = consumed ++ (while_true getTextSize events st).2
    ∧ total_detections (stats (sys (while_true getTextSize events st).1.2))
      = total_detections (stats (sys st))
        + foldr (λ ev n, sightings_in (sys st) ev + n) 0 consumed.
Proof. by apply while_true_total. Qed.

(** An iteration either raises before anything is appended to the window
    or shown, or completes. *)
Lemma iteration_cases getTextSize io st :
  (∃ e, (iteration getTextSize io st).1 = Raised e
        ∧ fps_counter (iteration getTextSize io st).2 = fps_counter st
        ∧ shown (iteration getTextSize io st).2 = shown st)
  ∨ (∃ detections,
       detect_in_frame (model_names (sys st)) (confidence_threshold (sys st))
         (inference io) = Ok detections
       ∧ render_error io = None
       ∧ ¬ (processing_time io == 0)%Q).
Proof.
  destruct (detect_in_frame (model_names (sys st))
              (confidence_threshold (sys st)) (inference io))
    as [detections|e] eqn:Hdet.
  - destruct (render_error io) as [e|] eqn:Hrender.
    + left. exists e. unfold iteration. by rewrite Hdet, Hrender.
    + destruct (Qeq_bool (processing_time io) 0) eqn:Hzero.
      * left. exists ZeroDivisionError. unfold iteration, Py.div.
        by rewrite Hdet, Hrender, Hzero.
      * right. exists detections. repeat split; try done.
        intros Heq. apply Qeq_eq_bool in Heq. congruence.
  - left. exists e. unfold iteration. by rewrite Hdet.
Qed.

Lemma deque_append_min (w : list Q) (x : Q) :
  length (deque_append 30 w x) = (30 `min` (length w + 1))%nat
  ∨ (30 < length w)%nat.
Proof.
  unfold deque_append.
  destruct (Nat.ltb_spec 30 (length (w ++ [x]))) as [Hlt|Hge];
    rewrite ?length_drop, length_app in *; cbn [length] in *; lia.
Qed.

Lemma avg_defined (w : list Q) :
  (0 < length w)%nat →
  Py.div (Py.sum w) (inject_Z (Py.len w))
  = Ok (Py.sum w / inject_Z (Py.len w))%Q.
Proof. intros Hlen. unfold Py.div. by rewrite len_not_zero. Qed.

Lemma iteration_display_none getTextSize io st :
  iteration_display getTextSize io None st = iteration getTextSize io st.
Proof.
  unfold iteration_display, iteration.
  destruct (detect_in_frame _ _ _); [|done].
  destruct (render_error io); [done|].
  destruct (Py.div 1 _); [|done].
  by destruct (Py.div (Py.sum _) _).
Qed.

Lemma iteration_display_fails getTextSize io call e st detections :
  detect_in_frame (model_names (sys st)) (confidence_threshold (sys st))
    (inference io) = Ok detections →
  render_error io = None →
  ¬ (processing_time io == 0)%Q →
  let st' := (iteration_display getTextSize io (Some (call, e)) st).2 in
  (iteration_display getTextSize io (Some (call, e)) st).1 = Raised e
  ∧ sys st' = on_sightings detections (sys st)
  ∧ fps_counter st'
    = deque_append 30 (fps_counter st) (1 / processing_time io)%Q
  ∧ length (shown st')
    = (length (shown st)
       + match call with CallWaitKey => 1 | _ => 0 end)%nat.
Proof.
  intros Hdet Hrender Htime. unfold iteration_display.
  rewrite Hdet, Hrender, (div_nonzero _ _ Htime).
  rewrite avg_defined by apply deque_append_nonempty.
  destruct call; cbn [fst snd sys fps_counter shown];
    rewrite ?length_app; cbn [length]; repeat split; lia.
Qed.

(** What an iteration with a failing display call leaves of the window and
    of the frames shown. *)
Lemma iteration_display_cases getTextSize io failure st :
  let st' := (iteration_display getTextSize io (Some failure) st).2 in
  (fps_counter st' = fps_counter st ∧ shown st' = shown st)
  ∨ (∃ x,
       fps_counter st' = deque_append 30 (fps_counter st) x
       ∧ (length (shown st) ≤ length (shown st')
          ≤ S (length (shown st)))%nat).
Proof.
  destruct failure as [call e].
  destruct (detect_in_frame (model_names (sys st))
              (confidence_threshold (sys st)) (inference io))
    as [detections|e'] eqn:Hdet.
  - destruct (render_error io) as [e'|] eqn:Hrender.
    + left. unfold iteration_display. by rewrite Hdet, Hrender.
    + destruct (Qeq_bool (processing_time io) 0) eqn:Hzero.
      * left. unfold iteration_display, Py.div.
        by rewrite Hdet, Hrender, Hzero.
      * right. eexists.
        destruct (iteration_display_fails getTextSize io call e st
                    detections Hdet Hrender) as (_ & _ & Hwin & Hshown).
        { intros Heq. apply Qeq_eq_bool in Heq. congruence. }
        split; [exact Hwin|]. rewrite Hshown. destruct call; lia.
  - left. unfold iteration_display. by rewrite Hdet.
Qed.

(** X10.  A sample enters the FPS window (line 164) before the frame is
    shown (line 169).  An iteration in which [cv2.putText] or [cv2.imshow]
    then raises leaves the sample in the window and shows no frame, and
    one in which [cv2.waitKey] raises has shown the frame; in all three the
    sightings have been handled.  Whatever fails, the window never holds
    more than 30 samples and never fewer than the frames shown, up to
    30. *)
Theorem window_covers_shown_frames getTextSize :
  (∀ io st,
     iteration_display getTextSize io None st = iteration getTextSize io st)
  ∧ (∀ io call e st detections,
       detect_in_frame (model_names (sys st))
         (confidence_threshold (sys st)) (inference io) = Ok detections →
       render_error io = None →
       ¬ (processing_time io == 0)%Q →
       let st' := (iteration_display getTextSize io (Some (call, e)) st).2 in
       (iteration_display getTextSize io (Some (call, e)) st).1 = Raised e
       ∧ sys st' = on_sightings detections (sys st)
       ∧ fps_counter st'
         = deque_append 30 (fps_counter st) (1 / processing_time io)%Q
       ∧ length (shown st')
         = (length (shown st)
            + match call with CallWaitKey => 1 | _ => 0 end)%nat)
  ∧ (∀ st, reachable_display getTextSize st →
       (30 `min` length (shown st) ≤ length (fps_counter st) ≤ 30)%nat).
Proof.
  split; [apply iteration_display_none|].
  split; [apply iteration_display_fails|].
  induction 1 as [names threshold|ev st _ IH|io failure st _ IH].
  - cbn [fps_counter shown length]. lia.
  - destruct ev as [io|]; [|exact IH]. cbn [event_step].
    destruct (iteration_cases getTextSize io st)
      as [(e & _ & -> & ->)|(detections & Hdet & Hrender & Htime)];
      [exact IH|].
    rewrite (iteration_completes getTextSize io st detections) by done.
    cbn [snd fps_counter shown]. rewrite length_app. cbn [length].
    destruct (deque_append_min (fps_counter st) (1 / processing_time io)%Q);
      lia.
  - destruct (iteration_display_cases getTextSize io failure st)
      as [[-> ->]|(x & -> & Hshown)]; [exact IH|].
    destruct (deque_append_min (fps_counter st) x); lia.
Qed.

Lemma window_covers_shown_frames_witness :
  let st :=
    (iteration_display Examples.getTextSize
       (Examples.frame_with [Examples.ambulance_box (9 # 10)] (1 # 20))
       (Some (CallImshow, ExternalError 3)) Examples.start).2 in
  fps_counter st = [(20 # 1)%Q]
  ∧ shown st = []
  ∧ total_detections (stats (sys st)) = 1
  ∧ (30 `min` length (shown st) ≤ length (fps_counter st) ≤ 30)%nat.
Proof.
  intros st. split; [reflexivity|]. split; [reflexivity|].
  split; [reflexivity|].
  destruct (window_covers_shown_frames Examples.getTextSize)
    as (_ & _ & Hinv).
  apply Hinv. subst st. apply display_fails, display_start.
Defined.

Lemma low_byte (k : Z) : Z.land k 255 = k mod 256.
Proof. exact (Z.land_ones k 8 ltac:(lia)). Qed.

(** X11.  In an iteration that fails nowhere the frame is shown first and
    then the loop is left exactly when the low byte of the key code is 113,
    the code of 'q'; with any other key, or none (-1), the loop goes on.
    The higher bits of the key code are ignored. *)
Theorem quit_on_low_byte_q getTextSize io st detections :
  detect_in_frame (model_names (sys st)) (confidence_threshold (sys st))
    (inference io) = Ok detections →
  render_error io = None →
  ¬ (processing_time io == 0)%Q →
  ((iteration getTextSize io st).1 = Break ↔ key io mod 256 = 113)
  ∧ ((iteration getTextSize io st).1 = Next ↔ key io mod 256 ≠ 113)
  ∧ length (shown (iteration getTextSize io st).2)
    = S (length (shown st)).
Proof.
  intros Hdet Hrender Htime.
  rewrite (iteration_completes getTextSize io st detections) by done.
  simpl. rewrite low_byte, length_app. simpl.
  destruct (Z.eqb_spec (key io mod 256) 113); repeat split; try done; lia.
Qed.

Lemma quit_on_low_byte_q_witness :
  (iteration Examples.getTextSize
     {| image := Examples.blank; inference := Ok []; render_error := None;
        processing_time := 1 # 20; key := 113 + 256 * 4096 |}
     Examples.start).1
  = Break.
Proof.
  apply (quit_on_low_byte_q Examples.getTextSize
           {| image := Examples.blank; inference := Ok [];
              render_error := None; processing_time := 1 # 20;
              key := 113 + 256 * 4096 |}
           Examples.start []); try reflexivity.
  discriminate.
Defined.

Lemma event_step_completes getTextSize ev st s0 :
  model_names (sys st) = model_names s0 →
  confidence_threshold (sys st) = confidence_threshold s0 →
  completes s0 ev →
  (event_step getTextSize ev st).1 = Next
  ∧ length (shown (event_step getTextSize ev st).2)
    = (length (shown st) + (if is_frame ev then 1 else 0))%nat.
Proof.
  intros Hn Ht Hev. destruct ev as [io|]; simpl; [|split; [done|lia]].
  destruct Hev as ((detections & Hdet) & Hrender & Htime & Hkey).
  rewrite <- Hn, <- Ht in Hdet.
  rewrite (iteration_completes getTextSize io st detections) by done.
  simpl. rewrite length_app. simpl. split; [|done].
  by destruct (Z.eqb_spec (Z.land (key io) 255) 113).
Qed.




(** ** More on the overlay *)

Lemma draw_detections_layout getTextSize detections : ∀ frame,
  let frame' := draw_detections getTextSize frame detections in
  height frame' = height frame
  ∧ width frame' = width frame
  ∧ ∃ added,
      canvas frame' = canvas frame ++ added
      ∧ length added = (3 * length detections)%nat.
Proof.
  induction detections as [|d detections IH]; intros frame.
  - repeat split. exists []. by rewrite app_nil_r.
  - unfold draw_detections in *. simpl fold_left.
    destruct (IH (draw_detection getTextSize frame d))
      as (Hh & Hw & added & Hc & Hlen).
    destruct (draw_detection_shape getTextSize frame d) as [Hh' Hw'].
    split; [congruence|]. split; [congruence|].
    rewrite draw_detection_canvas in Hc.
    destruct (bbox d) as [[[b0 b1] b2] b3].
    eexists. rewrite Hc, <- app_assoc. split; [done|].
    rewrite length_app, Hlen. simpl length. lia.
Qed.

Lemma put_info_layout status_color w texts : ∀ i frame,
  let frame' := put_info status_color w i texts frame in
  height frame' = height frame
  ∧ width frame' = width frame
  ∧ ∃ added,
      canvas frame' = canvas frame ++ added
      ∧ length added = length texts.
Proof.
  induction texts as [|text texts IH]; intros i frame.
  - repeat split. exists []. by rewrite app_nil_r.
  - simpl put_info.
    destruct (IH (i + 1)
                (draw (PutText (Plain text) (w - 290, 35 + i * 25) (6 # 10)
                         (if Py.contains "ACTIVE" text
                             || Py.contains "GREEN" text
                          then status_color else (255, 255, 255)) 2) frame))
      as (Hh & Hw & added & Hc & Hlen).
    split; [done|]. split; [done|].
    eexists. rewrite Hc. simpl canvas. rewrite <- app_assoc.
    split; [done|]. simpl. by rewrite Hlen.
Qed.

(** X13.  The frame shown by an iteration that fails nowhere has the size
    of the frame read, and its drawing commands are those already on the
    frame read followed by three per sighting, the five of the status panel
    and the FPS text: nothing drawn earlier is removed, and the number
    of commands added is 3 * len(detections) + 6. *)
Theorem shown_frame_layout getTextSize io st detections :
  detect_in_frame (model_names (sys st)) (confidence_threshold (sys st))
    (inference io) = Ok detections →
  render_error io = None →
  ¬ (processing_time io == 0)%Q →
  ∃ frame added,
    last (shown (iteration getTextSize io st).2) = Some frame
    ∧ height frame = height (image io)
    ∧ width frame = width (image io)
    ∧ canvas frame = canvas (image io) ++ added
    ∧ length added = (3 * length detections + 6)%nat.
Proof.
  intros Hdet Hrender Htime.
  rewrite (iteration_completes getTextSize io st detections) by done.
  cbn [snd shown]. rewrite last_snoc.
  destruct (draw_detections_layout getTextSize detections (image io))
    as (Hh & Hw & added1 & Hc1 & Hlen1).
  set (frame1 := draw_detections getTextSize (image io) detections) in *.
  unfold add_info_overlay.
  set (panel := draw _ frame1).
  set (status := if emergency_active _ then _ else _).
  destruct (put_info_layout status (width frame1) (info_text
              (on_sightings detections (sys st))) 0 panel)
    as (Hh2 & Hw2 & added2 & Hc2 & Hlen2).
  eexists _, _. split; [done|]. cbn [height width canvas draw].
  split; [by rewrite Hh2|]. split; [by rewrite Hw2|].
  rewrite Hc2. subst panel. cbn [canvas draw]. rewrite Hc1.
  rewrite <- !app_assoc. split; [done|].
  rewrite !length_app, Hlen1, Hlen2. simpl. lia.
Qed.

Lemma shown_frame_layout_witness :
  ∃ frame added,
    last (shown (iteration Examples.getTextSize
                   (Examples.frame_with [Examples.ambulance_box (9 # 10)]
                      (1 # 20))
                   Examples.start).2) = Some frame
    ∧ height frame = 480
    ∧ width frame = 640
    ∧ canvas frame = [] ++ added
    ∧ length added = 9%nat.
Proof.
  apply (shown_frame_layout Examples.getTextSize
           (Examples.frame_with [Examples.ambulance_box (9 # 10)] (1 # 20))
           Examples.start
           [detection_of (Examples.ambulance_box (9 # 10))]);
    try reflexivity.
  discriminate.
Defined.

Lemma contains_needs_first_char c needle haystack :
  occurs c haystack = false →
  Py.contains (String c needle) haystack = false.
Proof.
  induction haystack as [|c' rest IH]; simpl; [done|].
  intros Hocc. apply orb_false_iff in Hocc as [Hc Hrest].
  rewrite (IH Hrest), orb_false_r.
  apply Ascii.eqb_neq in Hc. destruct (ascii_dec c c'); [congruence|done].
Qed.

Lemma uint_has_no_letter (c : ascii) (d : Decimal.uint) :
  (c = "A" ∨ c = "G")%char →
  occurs c (NilEmpty.string_of_uint d) = false.
Proof.
  intros [-> | ->]; induction d; simpl; done.
Qed.

Lemma str_has_no_letter (c : ascii) (n : Z) :
  (c = "A" ∨ c = "G")%char → occurs c (Py.str n) = false.
Proof.
  intros Hc. unfold Py.str, NilZero.string_of_int, NilZero.string_of_uint.
  destruct (Z.to_int n) as [d|d].
  - destruct d; try (by apply (uint_has_no_letter c _ Hc)).
    by destruct Hc as [-> | ->].
  - assert (occurs c "-" = false) as Hminus by (by destruct Hc as [-> | ->]).
    simpl in *. apply orb_false_iff in Hminus as [-> _]. simpl.
    destruct d; try (by apply (uint_has_no_letter c _ Hc)).
    by destruct Hc as [-> | ->].
Qed.

Lemma occurs_app (c : ascii) (a b : string) :
  occurs c (a +:+ b) = occurs c a || occurs c b.
Proof.
  induction a as [|c' a IH]; simpl; [done|].
  by rewrite IH, orb_assoc.
Qed.

Lemma counter_line_is_plain (label : string) (n : Z) :
  occurs "A" label = false → occurs "G" label = false →
  Py.contains "ACTIVE" (label +:+ Py.str n) = false
  ∧ Py.contains "GREEN" (label +:+ Py.str n) = false.
Proof.
  intros HA HG.
  split; apply contains_needs_first_char; rewrite occurs_app.
  - rewrite HA. apply str_has_no_letter. by left.
  - rewrite HG. apply str_has_no_letter. by right.
Qed.

(** X14.  In every state in which flag and signal agree, the status panel
    is one blended black rectangle followed by four lines of text at
    x = width - 290 and y = 35, 60, 85, 110.  The two counter lines are
    always white, whatever the counters are; the emergency line and the
    signal line are green while the emergency is active and white
    otherwise. *)
Theorem status_panel_colours s frame :
  signal_agrees s →
  let status : Color :=
    if emergency_active s then (0, 255, 0) else (255, 255, 255) in
  let x := width frame - 290 in
  canvas (add_info_overlay s frame)
  = canvas frame ++
    [ Blend (Rectangle (width frame - 300, 10) (width frame - 10, 120)
               (0, 0, 0) (-1)) (6 # 10) (4 # 10);
      PutText (Plain ("Detections: "
                      +:+ Py.str (total_detections (stats s))))
        (x, 35) (6 # 10) (255, 255, 255) 2;
      PutText (Plain ("Signal Changes: "
                      +:+ Py.str (signal_changes (stats s))))
        (x, 60) (6 # 10) (255, 255, 255) 2;
      PutText (Plain (if emergency_active s then "Emergency: ACTIVE"
                      else "Emergency: NORMAL"))
        (x, 85) (6 # 10) status 2;
      PutText (Plain (if emergency_active s then "Signal: GREEN"
                      else "Signal: RED"))
        (x, 110) (6 # 10) status 2 ].
Proof.
  intros [[Hon _] [Hoff _]].
  destruct (counter_line_is_plain "Detections: "
              (total_detections (stats s)) eq_refl eq_refl) as [HA1 HG1].
  destruct (counter_line_is_plain "Signal Changes: "
              (signal_changes (stats s)) eq_refl eq_refl) as [HA2 HG2].
  unfold add_info_overlay, info_text. cbn [put_info].
  rewrite HA1, HG1, HA2, HG2. cbn [orb].
  destruct (emergency_active s).
  - rewrite Hon by done. cbn. by rewrite <- !app_assoc.
  - rewrite Hoff by done. cbn. by rewrite <- !app_assoc.
Qed.

Lemma status_panel_colours_witness :
  canvas (add_info_overlay
            (on_sightings [detection_of (Examples.ambulance_box (9 # 10))]
               Examples.fresh)
            Examples.blank) !! 4%nat
  = Some (PutText (Plain "Signal: GREEN") (350, 110) (6 # 10) (0, 255, 0) 2).
Proof.
  rewrite (status_panel_colours
             (on_sightings [detection_of (Examples.ambulance_box (9 # 10))]
                Examples.fresh) Examples.blank);
    [reflexivity|].
  apply on_sightings_agrees, init_agrees.
Defined.

(** ** More on the FPS readout *)

Lemma plus_positive (x y : Q) : (0 < x)%Q → (0 <= y)%Q → (0 < x + y)%Q.
Proof.
  intros Hx Hy. pose proof (Qplus_lt_le_compat 0 x 0 y Hx Hy) as H.
  by rewrite Qplus_0_l in H.
Qed.

Lemma fold_right_nonneg (xs : list Q) :
  Forall (λ x, (0 < x)%Q) xs → (0 <= fold_right Qplus 0 xs)%Q.
Proof.
  induction 1 as [|x xs Hx _ IH]; simpl; [apply Qle_refl|].
  apply Qlt_le_weak, plus_positive; done.
Qed.

Lemma sum_positive (xs : list Q) :
  (0 < length xs)%nat → Forall (λ x, (0 < x)%Q) xs → (0 < Py.sum xs)%Q.
Proof.
  intros Hlen Hall. rewrite sum_is_mean_numerator.
  destruct Hall as [|x xs Hx Hall]; [simpl in Hlen; lia|].
  simpl. apply plus_positive; [done|by apply fold_right_nonneg].
Qed.

Lemma reciprocal_positive (p : Q) : (0 < p)%Q → (0 < 1 / p)%Q.
Proof.
  intros Hp. unfold Qdiv. rewrite Qmult_1_l. by apply Qinv_lt_0_compat.
Qed.

Lemma deque_append_Forall (P : Q → Prop) (w : list Q) (x : Q) :
  Forall P w → P x → Forall P (deque_append 30 w x).
Proof.
  intros Hw Hx. unfold deque_append.
  assert (Forall P (w ++ [x])) as Hall
    by (apply Forall_app; split; [done|by constructor]).
  destruct (30 <? length (w ++ [x]))%nat; [by apply Forall_drop|done].
Qed.

(** X15.  When the elapsed time of an iteration that fails nowhere is
    positive and every sample in the window is positive, every sample in the
    window after it is positive and the average FPS it writes on the frame
    is positive. *)
Theorem positive_times_give_positive_fps getTextSize io st detections :
  detect_in_frame (model_names (sys st)) (confidence_threshold (sys st))
    (inference io) = Ok detections →
  render_error io = None →
  (0 < processing_time io)%Q →
  Forall (λ x, (0 < x)%Q) (fps_counter st) →
  Forall (λ x, (0 < x)%Q) (fps_counter (iteration getTextSize io st).2)
  ∧ ∃ frame avg_fps,
      last (shown (iteration getTextSize io st).2) = Some frame
      ∧ last (canvas frame)
        = Some (PutText (Fixed "FPS: " 1 avg_fps) (10, 30) (7 # 10)
                  (0, 255, 0) 2)
      ∧ (0 < avg_fps)%Q.
Proof.
  intros Hdet Hrender Htime Hwin.
  assert (¬ (processing_time io == 0)%Q) as Hnz.
  { intros Heq. rewrite Heq in Htime. by apply Qlt_irrefl in Htime. }
  rewrite (iteration_completes getTextSize io st detections) by done.
  cbn [snd fps_counter shown].
  set (w := deque_append 30 (fps_counter st) (1 / processing_time io)%Q).
  assert (Forall (λ x, (0 < x)%Q) w) as Hw
    by (by apply deque_append_Forall, reciprocal_positive).
  split; [done|].
  eexists _, _. rewrite last_snoc. split; [done|].
  cbn [canvas draw]. rewrite last_snoc. split; [done|].
  pose proof (deque_append_nonempty (fps_counter st)
                (1 / processing_time io)%Q) as Hlen.
  fold w in Hlen.
  unfold Qdiv. apply Qmult_lt_0_compat; [by apply sum_positive|].
  apply Qinv_lt_0_compat. unfold Qlt, Py.len. simpl. lia.
Qed.

Lemma positive_times_give_positive_fps_witness :
  Forall (λ x, (0 < x)%Q)
    (fps_counter
       (iteration Examples.getTextSize (Examples.frame_with [] (1 # 20))
          Examples.start).2).
Proof.
  apply (positive_times_give_positive_fps Examples.getTextSize
           (Examples.frame_with [] (1 # 20)) Examples.start []);
    try reflexivity.
  constructor.
Defined.

(** ** Emergencies and frames *)

(** X16.  Frames alone never end an emergency and never re-arm its timer:
    over any run without a timer event that starts while the emergency is
    active, however the loop is left, the emergency is still active, the
    signal and [signal_changes] are what they were, and the pending timers
    are the same. *)
Theorem emergency_outlasts_frames getTextSize events : ∀ st,
  Forall (λ ev, is_frame ev = true) events →
  emergency_active (sys st) = true →
  let s' := sys (while_true getTextSize events st).1.2 in
  emergency_active s' = true
  ∧ traffic_signal_state s' = traffic_signal_state (sys st)
  ∧ signal_changes (stats s') = signal_changes (stats (sys st))
  ∧ timers s' = timers (sys st).
Proof.
  induction events as [|ev events IH]; intros st Hall Hact; simpl.
  - done.
  - apply Forall_cons in Hall as [Hev Hall].
    destruct ev as [io|]; [|done].
    assert (emergency_active (sys (iteration getTextSize io st).2) = true
            ∧ traffic_signal_state (sys (iteration getTextSize io st).2)
              = traffic_signal_state (sys st)
            ∧ signal_changes (stats (sys (iteration getTextSize io st).2))
              = signal_changes (stats (sys st))
            ∧ timers (sys (iteration getTextSize io st).2)
              = timers (sys st)) as (Hact' & Hsig & Hchg & Htim).
    { rewrite iteration_sys.
      destruct (detect_in_frame _ _ _) as [detections|e]; [|done].
      destruct (on_sightings_when_active detections _ Hact)
        as (? & ? & ? & ? & _).
      done. }
    simpl. destruct (iteration getTextSize io st) as [[| |e] st'];
      simpl in *; [|done..].
    destruct (IH st' Hall Hact') as (? & ? & ? & ?).
    repeat split; congruence.
Qed.

Lemma emergency_outlasts_frames_witness :
  emergency_active
    (sys (while_true Examples.getTextSize
            [ EvFrame (Examples.frame_with [] (1 # 20));
              EvFrame Examples.failing_inference ]
            (event_step Examples.getTextSize
               (EvFrame (Examples.frame_with
                           [Examples.ambulance_box (9 # 10)] (1 # 20)))
               Examples.start).2).1.2)
  = true.
Proof.
  apply (emergency_outlasts_frames Examples.getTextSize
           [ EvFrame (Examples.frame_with [] (1 # 20));
             EvFrame Examples.failing_inference ]);
    [repeat constructor | reflexivity].
Defined.

(** ** Entry point *)

(** X17.  [main] prints "System shutdown complete." exactly when the model
    file exists, the model loads and [process_video_stream] returns without
    an exception; this includes the case where the video source fails to
    open, which only logs an error.  When the model file is missing [main]
    prints the two error lines, builds no detector and returns normally.
    An exception raised while loading the model or inside the stream leaves
    [main] with no shutdown line. *)
Theorem main_prints_shutdown getTextSize model_file_exists load_model opened
    events :
  let run := main getTextSize model_file_exists load_model opened events in
  (PrintShutdown ∈ run.1.2 ↔
   model_file_exists = true
   ∧ ∃ names,
       load_model = Ok names
       ∧ (process_video_stream getTextSize opened events
            (init names (7 # 10))).1.1 = Ok tt)
  ∧ (model_file_exists = false →
     run = (Ok tt, [PrintInitializing; PrintModelNotFound; PrintModelHint],
            None))
  ∧ (∀ e, run.1.1 = Raise e → PrintShutdown ∉ run.1.2)
  ∧ (model_file_exists = true → opened = false →
     ∀ names, load_model = Ok names →
       run.1.1 = Ok tt ∧ PrintShutdown ∈ run.1.2).
Proof.
  assert (∀ printed,
            Forall (λ p, p ≠ PrintShutdown) printed →
            PrintShutdown ∉ printed) as Hnot.
  { intros printed Hall Hin. rewrite Forall_forall in Hall.
    by apply (Hall _ Hin). }
  assert (PrintShutdown
          ∈ [PrintInitializing; PrintInitialized; PrintStartingVideo;
             PrintShutdown])
    as Hin by (rewrite !elem_of_cons; by do 3 right; left).
  unfold main. destruct model_file_exists; simpl.
  - destruct load_model as [names|e]; simpl.
    + destruct (process_video_stream getTextSize opened events
                  (init names (7 # 10))) as [[[[]|e] st] rest] eqn:Hrun;
        simpl.
      * split; [|split; [done|split]].
        -- split; [|done]. intros _. split; [done|].
           exists names. by rewrite Hrun.
        -- intros e He. discriminate He.
        -- intros _ _ names' _. done.
      * split; [|split; [done|split]].
        -- split; [by intros ?%Hnot; [|repeat constructor]|].
           intros (_ & names' & [= <-] & Hok). by rewrite Hrun in Hok.
        -- intros e' _. apply Hnot. by repeat constructor.
        -- intros _ -> names' _.
           unfold process_video_stream in Hrun. simpl in Hrun. done.
    + split; [|split; [done|split]].
      * split; [by intros ?%Hnot; [|repeat constructor]|].
        by intros (_ & names & ? & _).
      * intros e' _. apply Hnot. by repeat constructor.
      * intros _ _ names ?. done.
  - split; [|split; [done|split]].
    + split; [by intros ?%Hnot; [|repeat constructor]|]. by intros (? & _).
    + intros e He. discriminate He.
    + intros ?. done.
Qed.

Lemma main_prints_shutdown_witness :
  (main Examples.getTextSize true (Ok Examples.names) false
     [EvFrame (Examples.frame_with [] (1 # 20))]).1.2
  = [PrintInitializing; PrintInitialized; PrintStartingVideo; PrintShutdown]
  ∧ PrintShutdown
    ∈ (main Examples.getTextSize true (Ok Examples.names) false
         [EvFrame (Examples.frame_with [] (1 # 20))]).1.2.
Proof.
  split; [reflexivity|].
  destruct (main_prints_shutdown Examples.getTextSize true
              (Ok Examples.names) false
              [EvFrame (Examples.frame_with [] (1 # 20))])
    as (_ & _ & _ & Hclosed).
  by destruct (Hclosed eq_refl eq_refl Examples.names eq_refl).
Defined.

(** ** The window over a whole run *)

Lemma while_true_window getTextSize events : ∀ st s0,
  model_names (sys st) = model_names s0 →
  confidence_threshold (sys st) = confidence_threshold s0 →
  Forall (completes s0) events →
  fps_counter (while_true getTextSize events st).1.2
  = fold_left (deque_append 30) (elapsed_samples events) (fps_counter st).
Proof.
  induction events as [|ev events IH]; intros st s0 Hn Ht Hall; [done|].
  apply Forall_cons in Hall as [Hev Hall].
  destruct (event_step_completes getTextSize ev st s0 Hn Ht Hev)
    as [Hnext _].
  destruct (event_step_config getTextSize ev st) as (Hn' & Ht' & _).
  assert (fps_counter (event_step getTextSize ev st).2
          = fold_left (deque_append 30) (elapsed_samples [ev])
              (fps_counter st)) as Hwin.
  { destruct ev as [io|]; [|done].
    destruct Hev as ((detections & Hdet) & Hrender & Htime & _).
    rewrite <- Hn, <- Ht in Hdet. simpl.
    by rewrite (iteration_completes getTextSize io st detections). }
  change (ev :: events) with ([ev] ++ events).
  unfold elapsed_samples in *. rewrite flat_map_app, fold_left_app, <- Hwin.
  simpl. destruct (event_step getTextSize ev st) as [c st1].
  simpl in *. subst c. apply (IH st1 s0); congruence.
Qed.

(** X18.  When the source opens and no event of the stream fails or
    presses the quit key, the FPS window [process_video_stream] ends with
    holds the reciprocals of the elapsed times of the last 30 frames read,
    oldest first, or of all frames if fewer than 30 were read. *)
Theorem window_after_uneventful_stream getTextSize events s :
  Forall (completes s) events →
  fps_counter (process_video_stream getTextSize true events s).1.2
  = drop (length (elapsed_samples events) - 30) (elapsed_samples events).
Proof.
  intros Hall. unfold process_video_stream. simpl.
  pose proof (while_true_window getTextSize events
                {| sys := write_log LogStarting s; fps_counter := [];
                   shown := [] |} s eq_refl eq_refl Hall) as Hwin.
  destruct (while_true _ _ _) as [[outcome st'] rest]. simpl in *.
  rewrite Hwin. by rewrite window_drop by (simpl; lia).
Qed.

Lemma window_after_uneventful_stream_witness :
  fps_counter
    (process_video_stream Examples.getTextSize true
       [ EvFrame (Examples.frame_with [] (1 # 20));
         EvTimer;
         EvFrame (Examples.frame_with [] (1 # 25)) ]
       Examples.fresh).1.2
  = [(20 # 1)%Q; (25 # 1)%Q].
Proof.
  rewrite (window_after_uneventful_stream Examples.getTextSize);
    [reflexivity|].
  repeat constructor; try (by eexists); discriminate.
Defined.
